(** * astrbot_plugin_help: command discovery, whitelist parsing and
      handler synthesis of [main.py], embedded and verified.

    The development follows [main.py] top to bottom:
    - [PyStr]: the Python string operations the plugin uses ([str.strip],
      [in], [str.split(sep, 1)], [str.replace], [str()]);
    - [ODict]: insertion-ordered dictionaries ([dict], [defaultdict(list)]);
    - [Host]: the records of the host runtime the plugin reads;
    - [Plugin]: the methods of [MyPlugin];
    - [HostRegistry]: what the host's decorator keeps of the calls the
      synthesizer makes;
    - the vocabulary of the statements and sample instances;
    - then the properties, with the lemmas each one needs. *)

From Stdlib Require Import ZArith NArith Strings.String Strings.Ascii.
From Stdlib Require Import Numbers.DecimalString.
From stdpp Require Import base decidable option list gmap.

Local Open Scope N_scope.

(** ** Python strings *)

Module PyStr.

(** A Python [str] is a sequence of Unicode code points. *)
Abbreviation char := N (only parsing).
Abbreviation str := (list N) (only parsing).

Definition bytes_of (s : string) : list N :=
  map N_of_ascii (list_ascii_of_string s).

(** Source literals are written as UTF-8 text; [utf8_decode] turns the bytes
    of a literal into its code points. *)
Fixpoint utf8_decode (bs : list N) : str :=
  match bs with
  | [] => []
  | b0 :: r0 =>
    if b0 <? 128 then b0 :: utf8_decode r0
    else if b0 <? 224 then
      match r0 with
      | b1 :: r1 => ((b0 mod 32) * 64 + b1 mod 64) :: utf8_decode r1
      | _ => []
      end
    else if b0 <? 240 then
      match r0 with
      | b1 :: b2 :: r2 =>
        ((b0 mod 16) * 4096 + (b1 mod 64) * 64 + b2 mod 64) :: utf8_decode r2
      | _ => []
      end
    else
      match r0 with
      | b1 :: b2 :: b3 :: r3 =>
        ((b0 mod 8) * 262144 + (b1 mod 64) * 4096 + (b2 mod 64) * 64 + b3 mod 64)
          :: utf8_decode r3
      | _ => []
      end
  end.

Definition lit (s : string) : str := utf8_decode (bytes_of s).

(** [str.isspace] on one code point: the characters [str.strip()] removes. *)
Definition isspace (c : char) : bool :=
  ((9 <=? c) && (c <=? 13)) || ((28 <=? c) && (c <=? 32))
  || (c =? 133) || (c =? 160) || (c =? 5760)
  || ((8192 <=? c) && (c <=? 8202))
  || (c =? 8232) || (c =? 8233) || (c =? 8239) || (c =? 8287) || (c =? 12288).

Fixpoint lstrip (s : str) : str :=
  match s with
  | [] => []
  | c :: s' => if isspace c then lstrip s' else s
  end.

Definition rstrip (s : str) : str := rev (lstrip (rev s)).

(** [s.strip()] *)
Definition strip (s : str) : str := rstrip (lstrip s).

(** [c in s] for a one-character [c]. *)
Definition contains (c : char) (s : str) : bool := bool_decide (c ∈ s).

(** The two halves of [s] around the first [sep]: what [s.split(sep, 1)]
    unpacks to when [sep] occurs in [s]. *)
Fixpoint before_first (sep : char) (s : str) : str :=
  match s with
  | [] => []
  | c :: s' => if N.eqb c sep then [] else c :: before_first sep s'
  end.

Fixpoint after_first (sep : char) (s : str) : str :=
  match s with
  | [] => []
  | c :: s' => if N.eqb c sep then s' else after_first sep s'
  end.

Definition split1 (sep : char) (s : str) : str * str :=
  (before_first sep s, after_first sep s).

(** [s.replace(old, new)] for one-character [old] and [new]. *)
Definition replace (old new : char) (s : str) : str :=
  map (fun c => if N.eqb c old then new else c) s.

Definition dash : char := 45.
Definition space : char := 32.
Definition underscore : char := 95.

(** Python values that configuration lists and message payloads hold. *)
Inductive pyval :=
| PyNone
| PyBool (b : bool)
| PyInt (z : Z)
| PyStr (s : str).

#[global] Instance pyval_eq_dec : EqDecision pyval.
Proof. solve_decision. Defined.

(** [str(v)] *)
Definition py_str (v : pyval) : str :=
  match v with
  | PyNone => lit "None"
  | PyBool true => lit "True"
  | PyBool false => lit "False"
  | PyInt z => lit (NilZero.string_of_int (Z.to_int z))
  | PyStr s => s
  end.

(** Truthiness of a string: [if s:] *)
Definition nonempty (s : str) : bool :=
  match s with [] => false | _ => true end.

End PyStr.

Import PyStr.

(** ** Insertion-ordered dictionaries

    A Python [dict] keeps its keys in insertion order; assigning to a key
    that is present replaces the value in place, assigning to a new key
    appends it. *)

Module ODict.
Section odict.
Context {K V : Type} `{EqDecision K}.

Definition odict := list (K * V).

Fixpoint od_get (k : K) (d : odict) : option V :=
  match d with
  | [] => None
  | (k', v) :: d' => if decide (k' = k) then Some v else od_get k d'
  end.

(** [d[k] = v] *)
Fixpoint od_set (k : K) (v : V) (d : odict) : odict :=
  match d with
  | [] => [(k, v)]
  | (k', v') :: d' =>
    if decide (k' = k) then (k, v) :: d' else (k', v') :: od_set k v d'
  end.

(** [k in d] *)
Definition od_mem (k : K) (d : odict) : bool :=
  match od_get k d with Some _ => true | None => false end.

Definition od_keys (d : odict) : list K := map fst d.

(** [d.items()] *)
Definition od_items (d : odict) : list (K * V) := d.

End odict.

#[global] Arguments odict : clear implicits.
End ODict.

Import ODict.

(** ** The host runtime as the plugin reads it *)

Module Host.

(** An attribute as [getattr(obj, name, default)] finds it. *)
Inductive attr (A : Type) :=
| Absent
| IsNone
| Val (a : A).
#[global] Arguments Absent {A}.
#[global] Arguments IsNone {A}.
#[global] Arguments Val {A} a.

(** The object behind [star.star_cls]: an instance of [Star] (with its
    identity, for [is]) or anything else. *)
Inductive pyobj :=
| StarInstance (id : nat)
| OtherObject.

(** One entry of [context.get_all_stars()].  [star_cls] and [module_path]
    are read with default [None], so [None] covers both an absent attribute
    and one holding [None]. *)
Record StarMetadata := {
  name : attr str;
  star_cls : option pyobj;
  module_path : option str;
  activated : bool
}.

Inductive EventFilter :=
| CommandFilter (command_name : str)
| CommandGroupFilter (group_name : str)
| OtherFilter.

Record StarHandlerMetadata := {
  handler_module_path : str;
  desc : option str;
  event_filters : list EventFilter
}.

(** An element of the global [star_handlers_registry]. *)
Inductive registry_item :=
| Handler (md : StarHandlerMetadata)
| NotAHandler.

(** [context.get_all_stars()]: the list, or [None] when the call raises. *)
Record Context := { get_all_stars : option (list StarMetadata) }.

Record AstrBotMessage := { raw_message : option (gmap str pyval) }.
Record AstrMessageEvent := { message_obj : AstrBotMessage }.

Inductive component :=
| Image_fromBytes (image : list N).

(** What a handler yields: [event.plain_result] or [event.chain_result]. *)
Inductive result :=
| plain_result (text : str)
| chain_result (chain : list component).

(** A run of a handler (an async generator): the results it yielded, and
    whether it finished or an exception left it. *)
Inductive outcome :=
| Returned (yielded : list result)
| Raised (yielded : list result).

End Host.

Import Host.

(** ** The plugin *)

Module Plugin.

Abbreviation CommandsByExtension := (odict str (list str)) (only parsing).

(** The two options the plugin reads.  [None] stands for an attribute the
    config object does not have, so that [getattr] falls back on its
    default [[]]; a list is what the option holds otherwise.  A config
    object whose missing keys read as [None] instead is not represented. *)
Record AstrBotConfig := {
  whitelist : option (list pyval);
  plugin_whitelist : option (list pyval)
}.

(** [draw_help_image] returns the image bytes, or [None] when it raises. *)
Record AstrBotHelpDrawer := {
  draw_help_image : CommandsByExtension -> option (list N)
}.

(** The instance: the fields set in [__init__] before the whitelist is
    parsed, its identity, and the current contents of the module-level
    [star_handlers_registry] it iterates. *)
Record MyPlugin := {
  context : Context;
  config : option AstrBotConfig;
  drawer : AstrBotHelpDrawer;
  self_id : nat;
  star_handlers_registry : list registry_item
}.

(** [getattr(self.config, "plugin_whitelist", []) if self.config is not None else []] *)
Definition config_plugin_whitelist (self : MyPlugin) : list pyval :=
  match config self with
  | Some c => default [] (plugin_whitelist c)
  | None => []
  end.

(** [getattr(self.config, "whitelist", []) if self.config is not None else []] *)
Definition config_whitelist (self : MyPlugin) : list pyval :=
  match config self with
  | Some c => default [] (whitelist c)
  | None => []
  end.

(** Body of the loop of [_parse_whitelist_config] (lines 34-36). *)
Definition parse_item (whitelist_config : odict str str) (item : pyval)
  : odict str str :=
  match item with
  | PyStr s =>
    if contains dash s then
      let '(plugin_name, trigger_command) := split1 dash s in
      od_set (strip trigger_command) (strip plugin_name) whitelist_config
    else whitelist_config
  | _ => whitelist_config
  end.

Definition _parse_whitelist_config (self : MyPlugin) : odict str str :=
  fold_left parse_item (config_plugin_whitelist self) [].

(** Body of the loop at lines 171-174: the same split, keyed by extension. *)
Definition index_item (whitelist_config : odict str str) (item : pyval)
  : odict str str :=
  match item with
  | PyStr s =>
    if contains dash s then
      let '(plugin_name, trigger_command) := split1 dash s in
      od_set (strip plugin_name) (strip trigger_command) whitelist_config
    else whitelist_config
  | _ => whitelist_config
  end.

(** Lines 170-174 of [get_plugin_whitelist_commands]. *)
Definition whitelist_index (plugin_whitelist : list pyval) : odict str str :=
  fold_left index_item plugin_whitelist [].

(** *** The registry scan *)

(** [getattr(star, "name", "未知插件")] *)
Definition getattr_name (star : StarMetadata) : option str :=
  match name star with
  | Absent => Some (lit "未知插件")
  | IsNone => None
  | Val s => Some s
  end.

(** [x == "literal"] for a value that is a string or [None]. *)
Definition py_eq (x : option str) (s : str) : bool := bool_decide (x = Some s).

(** Truthiness of a value that is a string or [None]. *)
Definition truthy (x : option str) : bool :=
  match x with Some s => nonempty s | None => false end.

Definition isinstance_Star (o : option pyobj) : bool :=
  match o with Some (StarInstance _) => true | _ => false end.

(** [plugin_instance is self] *)
Definition is_self (self : MyPlugin) (o : option pyobj) : bool :=
  match o with
  | Some (StarInstance i) => bool_decide (i = self_id self)
  | _ => false
  end.

(** Lines 137-143: the first command or command-group filter decides. *)
Fixpoint first_command (filters : list EventFilter) : option str :=
  match filters with
  | [] => None
  | CommandFilter command_name :: _ => Some command_name
  | CommandGroupFilter group_name :: _ => Some group_name
  | OtherFilter :: rest => first_command rest
  end.

(** Lines 145-148. *)
Definition format_command (command_name : str) (description : option str) : str :=
  if truthy description
  then command_name ++ lit "#" ++ default [] description
  else command_name.

(** Body of the loop over [star_handlers_registry] (lines 131-150, and the
    same text at lines 198-222).  [plugin_commands] is a [defaultdict(list)]:
    reading a missing key gives the empty list. *)
Definition scan_handler (plugin_name : str) (mp : option str)
    (plugin_commands : CommandsByExtension) (handler : registry_item)
  : CommandsByExtension :=
  match handler with
  | NotAHandler => plugin_commands
  | Handler h =>
    if bool_decide (Some (handler_module_path h) ≠ mp) then plugin_commands
    else
      if truthy (first_command (event_filters h)) then
        let command_name := default [] (first_command (event_filters h)) in
        let formatted_command := format_command command_name (desc h) in
        let present := default [] (od_get plugin_name plugin_commands) in
        if bool_decide (formatted_command ∈ present) then plugin_commands
        else od_set plugin_name (present ++ [formatted_command]) plugin_commands
      else plugin_commands
  end.

Definition scan_handlers (self : MyPlugin) (plugin_name : str) (mp : option str)
    (plugin_commands : CommandsByExtension) : CommandsByExtension :=
  fold_left (scan_handler plugin_name mp) (star_handlers_registry self)
            plugin_commands.

(** Body of the loop over the stars in [get_all_commands] (lines 110-150). *)
Definition all_step (self : MyPlugin) (plugin_commands : CommandsByExtension)
    (star : StarMetadata) : CommandsByExtension :=
  let plugin_name := getattr_name star in
  let plugin_instance := star_cls star in
  let mp := module_path star in
  if py_eq plugin_name (lit "astrbot")
     || py_eq plugin_name (lit "astrbot_plugin_help")
     || py_eq plugin_name (lit "astrbot-reminder")
  then plugin_commands
  else if negb (truthy plugin_name) || negb (truthy mp)
          || negb (isinstance_Star plugin_instance)
  then plugin_commands
  else if is_self self plugin_instance then plugin_commands
  else scan_handlers self (default [] plugin_name) mp plugin_commands.

Definition get_all_commands (self : MyPlugin) : CommandsByExtension :=
  match get_all_stars (context self) with
  | None => []
  | Some stars =>
    let all_stars_metadata := List.filter activated stars in
    match all_stars_metadata with
    | [] => []
    | _ => fold_left (all_step self) all_stars_metadata []
    end
  end.

(** Body of the loop over the stars in [get_plugin_whitelist_commands]
    (lines 177-222). *)
Definition whitelist_step (self : MyPlugin) (whitelist_config : odict str str)
    (plugin_commands : CommandsByExtension) (star : StarMetadata)
  : CommandsByExtension :=
  let plugin_name := getattr_name star in
  let plugin_instance := star_cls star in
  let mp := module_path star in
  if negb (match plugin_name with
           | Some n => od_mem n whitelist_config
           | None => false
           end)
  then plugin_commands
  else if negb (truthy plugin_name) || negb (truthy mp)
          || negb (isinstance_Star plugin_instance)
  then plugin_commands
  else if is_self self plugin_instance then plugin_commands
  else scan_handlers self (default [] plugin_name) mp plugin_commands.

Definition get_plugin_whitelist_commands (self : MyPlugin) : CommandsByExtension :=
  let plugin_whitelist := config_plugin_whitelist self in
  match plugin_whitelist with
  | [] => []
  | _ =>
    match get_all_stars (context self) with
    | None => []
    | Some stars =>
      let all_stars_metadata := List.filter activated stars in
      let whitelist_config := whitelist_index plugin_whitelist in
      fold_left (whitelist_step self whitelist_config) all_stars_metadata []
    end
  end.

(** *** Synthesized handlers *)

(** A handler as the host calls it: bound to the instance, given the event. *)
Definition handler := MyPlugin -> AstrMessageEvent -> outcome.

(** [whitelist_handler] inside [make_handler] (lines 46-60); [plugin_name] is
    the argument of the enclosing [make_handler].  A failure of the drawer is
    caught by the [except] clause. *)
Definition whitelist_handler (plugin_name : str) : handler :=
  fun self event =>
    let help_msg := get_plugin_whitelist_commands self in
    match od_get plugin_name help_msg with
    | Some commands =>
      let plugin_help := [(plugin_name, commands)] in
      match draw_help_image (drawer self) plugin_help with
      | Some image => Returned [chain_result [Image_fromBytes image]]
      | None => Returned [plain_result (lit "获取帮助信息时出错")]
      end
    | None =>
      Returned [plain_result (lit "插件 " ++ plugin_name ++ lit " 未找到或未激活")]
    end.

Definition make_handler (plugin_name : str) : handler :=
  whitelist_handler plugin_name.

(** [f"whitelist_{command.replace(' ', '_')}"] (line 71). *)
Definition handler_name (command : str) : str :=
  lit "whitelist_" ++ replace space underscore command.

(** What [_create_whitelist_handlers] leaves behind: the calls
    [filter.command(command)(handler_func)] it makes, in order (what the
    host's registry holds after them is [HostRegistry.host_records]), and
    the attributes set on the instance with [setattr]. *)
Record registrations := {
  commands : list (str * handler);
  attributes : gmap str handler
}.

(** Body of the loop of [_create_whitelist_handlers] (lines 45-73). *)
Definition create_handler (st : registrations) (item : str * str) : registrations :=
  let '(command, plugin_name) := item in
  let handler_func := make_handler plugin_name in
  {| commands := commands st ++ [(command, handler_func)];
     attributes := <[handler_name command := handler_func]> (attributes st) |}.

Definition _create_whitelist_handlers (whitelist_commands : odict str str)
  : registrations :=
  fold_left create_handler (od_items whitelist_commands)
            {| commands := []; attributes := ∅ |}.

(** [__init__] (lines 24-26): the parsed whitelist and the handlers made
    from it. *)
Definition init (self : MyPlugin) : odict str str * registrations :=
  let whitelist_commands := _parse_whitelist_config self in
  (whitelist_commands, _create_whitelist_handlers whitelist_commands).

(** *** The full-discovery entry point *)

(** Lines 90-95 of [get_help]; nothing catches a failure of the drawer. *)
Definition discovery (self : MyPlugin) : outcome :=
  let help_msg := get_all_commands self in
  match help_msg with
  | [] => Returned [plain_result (lit "没有找到任何插件或命令")]
  | _ =>
    match draw_help_image (drawer self) help_msg with
    | Some image => Returned [chain_result [Image_fromBytes image]]
    | None => Raised []
    end
  end.

(** [get_help] (lines 76-95).  [raw.get] on a missing payload ([None])
    raises [AttributeError], which nothing in [get_help] catches. *)
Definition get_help (self : MyPlugin) (event : AstrMessageEvent) : outcome :=
  let raw := raw_message (message_obj event) in
  let whitelist := config_whitelist self in
  match raw with
  | None => Raised []
  | Some raw =>
    let user_id := default PyNone (raw !! lit "user_id") in
    if negb (bool_decide (whitelist = [])) && bool_decide (user_id ≠ PyNone) then
      let user_id_str := py_str user_id in
      let whitelist_str := map py_str whitelist in
      if bool_decide (user_id_str ∉ whitelist_str) then Returned []
      else discovery self
    else discovery self
  end.

End Plugin.

Import Plugin.

(** ** The host's handler registry, as the decorator calls fill it *)

Module HostRegistry.

(** [__name__] of every function [make_handler] returns: the inner [def]
    at line 46 is the same for all of them. *)
Definition closure_name : str := lit "whitelist_handler".

(** A record of the host's handler registry: the name it is filed under,
    the function it runs, and the commands of the filters attached to it. *)
Record handler_record := {
  record_name : str;
  record_handler : handler;
  record_commands : list str
}.

(** The host's decorator [filter.command(command)(f)], which is code of the
    host runtime and not of this repository, modelled from its behaviour:
    it looks for a record filed under the module and [__name__] of [f] (one
    module here, so the name decides); when there is one it attaches the
    command filter to that record and leaves the record's function as it
    is; otherwise it files a new record for [f]. *)
Fixpoint register_command (name command : str) (f : handler)
    (registry : list handler_record) : list handler_record :=
  match registry with
  | [] => [{| record_name := name; record_handler := f;
              record_commands := [command] |}]
  | r :: rest =>
    if decide (record_name r = name)
    then {| record_name := name; record_handler := record_handler r;
            record_commands := record_commands r ++ [command] |} :: rest
    else r :: register_command name command f rest
  end.

(** The records the calls of [_create_whitelist_handlers] leave in the
    host's registry. *)
Definition host_records (calls : list (str * handler)) : list handler_record :=
  fold_left (fun registry call => register_command closure_name call.1 call.2 registry)
            calls [].

End HostRegistry.

Import HostRegistry.

(** * Vocabulary of the statements

    Definitions used to state the properties: what the access gate admits,
    what a configuration item holds, what a scan meets for an extension. *)

(** The caller id [get_help] reads from a payload: [raw.get("user_id", None)]. *)
Definition caller_id (raw : gmap str pyval) : pyval :=
  default PyNone (raw !! lit "user_id").

(** The callers the gate lets through. *)
Definition caller_allowed (self : MyPlugin) (raw : gmap str pyval) : Prop :=
  config_whitelist self = []
  \/ caller_id raw = PyNone
  \/ py_str (caller_id raw) ∈ map py_str (config_whitelist self).

Definition event_of (raw : option (gmap str pyval)) : AstrMessageEvent :=
  {| message_obj := {| raw_message := raw |} |}.

(** Loops of the shape [for it in l: if ...: d[k] = v]. *)
Section fold_set.
Context {I K V : Type} `{EqDecision K} (kv : I -> option (K * V)).

Definition put (d : odict K V) (it : I) : odict K V :=
  match kv it with
  | Some (k, v) => od_set k v d
  | None => d
  end.

End fold_set.

(** What one configuration item holds: the trimmed extension name and the
    trimmed trigger command, when the item is a string containing ['-']. *)
Definition entry_of (item : pyval) : option (str * str) :=
  match item with
  | PyStr s =>
    if contains dash s
    then Some (strip (before_first dash s), strip (after_first dash s))
    else None
  | _ => None
  end.

Definition by_trigger (item : pyval) : option (str * str) :=
  match entry_of item with
  | Some (plugin_name, trigger_command) => Some (trigger_command, plugin_name)
  | None => None
  end.

(** The formatted command a registry item contributes to an extension
    whose module path is [mp], if any (lines 131-148). *)
Definition handler_command (mp : option str) (item : registry_item) : option str :=
  match item with
  | NotAHandler => None
  | Handler h =>
    if bool_decide (Some (handler_module_path h) ≠ mp) then None
    else if truthy (first_command (event_filters h))
    then Some (format_command (default [] (first_command (event_filters h))) (desc h))
    else None
  end.

(** Lines 149-150 on one list: append unless already present. *)
Definition add_new (present : list str) (formatted_command : str) : list str :=
  if bool_decide (formatted_command ∈ present) then present
  else present ++ [formatted_command].

(** The formatted commands found for one extension, in registry order. *)
Definition star_commands (self : MyPlugin) (mp : option str) : list str :=
  omap (handler_command mp) (star_handlers_registry self).

(** The command list of [k] in a mapping under construction. *)
Definition listed (k : str) (d : odict str (list str)) : list str :=
  default [] (od_get k d).

(** Both star loops have the same shape: a star is either skipped or its
    handlers are scanned under its name. *)
Section star_loop.
Variable self : MyPlugin.
Variable keep : StarMetadata -> bool.

Definition star_key (star : StarMetadata) : str := default [] (getattr_name star).

Definition star_step (d : odict str (list str)) (star : StarMetadata)
  : odict str (list str) :=
  if keep star then scan_handlers self (star_key star) (module_path star) d else d.

(** The formatted commands the loop meets for the key [k], in scan order. *)
Fixpoint contributions (k : str) (stars : list StarMetadata) : list str :=
  match stars with
  | [] => []
  | star :: rest =>
    (if keep star && bool_decide (star_key star = k)
     then star_commands self (module_path star) else [])
    ++ contributions k rest
  end.

End star_loop.

(** Keeping the first occurrence of each element: what repeated
    append-if-absent builds. *)
Fixpoint unseen (seen : list str) (l : list str) : list str :=
  match l with
  | [] => []
  | x :: rest =>
    if bool_decide (x ∈ seen) then unseen seen rest
    else x :: unseen (seen ++ [x]) rest
  end.

Definition first_occurrences (l : list str) : list str := unseen [] l.

Definition reserved_names : list str :=
  [lit "astrbot"; lit "astrbot_plugin_help"; lit "astrbot-reminder"].

(** The stars [get_all_commands] does not skip (lines 113-129). *)
Definition kept_all (self : MyPlugin) (star : StarMetadata) : bool :=
  negb (bool_decide (star_key star ∈ reserved_names))
  && truthy (getattr_name star) && truthy (module_path star)
  && isinstance_Star (star_cls star)
  && negb (is_self self (star_cls star)).

(** The stars [get_plugin_whitelist_commands] does not skip (lines 181-195). *)
Definition kept_whitelist (self : MyPlugin) (whitelist_config : odict str str)
    (star : StarMetadata) : bool :=
  od_mem (star_key star) whitelist_config
  && truthy (getattr_name star) && truthy (module_path star)
  && isinstance_Star (star_cls star)
  && negb (is_self self (star_cls star)).

(** The activated stars, or none when the registry query raises. *)
Definition active_stars (self : MyPlugin) : list StarMetadata :=
  match get_all_stars (context self) with
  | Some stars => List.filter activated stars
  | None => []
  end.

(** The same instance looking at another list of stars. *)
Definition with_stars (self : MyPlugin) (stars : list StarMetadata) : MyPlugin :=
  {| context := {| get_all_stars := Some stars |};
     config := config self;
     drawer := drawer self;
     self_id := self_id self;
     star_handlers_registry := star_handlers_registry self |}.

Definition all_contributions (self : MyPlugin) (k : str) : list str :=
  contributions self (kept_all self) k (active_stars self).

Definition whitelist_contributions (self : MyPlugin) (k : str) : list str :=
  contributions self
    (kept_whitelist self (whitelist_index (config_plugin_whitelist self)))
    k (active_stars self).

(** ** Vocabulary of the further properties *)

(** The values the items of [l] assign to the key [k], in order, for a
    loop of the shape [put kv]. *)
Definition assigned {I K V : Type} `{EqDecision K} (kv : I -> option (K * V))
    (k : K) (l : list I) : list V :=
  omap (fun it => match kv it with
                  | Some (k', v) => if decide (k' = k) then Some v else None
                  | None => None
                  end) l.

(** A string no [strip] would change: it neither starts nor ends with a
    whitespace character. *)
Definition trimmed (s : str) : Prop :=
  (forall c rest, s = c :: rest -> isspace c = false)
  /\ (forall c front, s = front ++ [c] -> isspace c = false).

(** The same instance looking at another handler registry. *)
Definition with_registry (self : MyPlugin) (reg : list registry_item) : MyPlugin :=
  {| context := context self;
     config := config self;
     drawer := drawer self;
     self_id := self_id self;
     star_handlers_registry := reg |}.

(** The kept stars that own at least one command, by name, in scan order. *)
Definition productive_names (self : MyPlugin) (keep : StarMetadata -> bool)
    (stars : list StarMetadata) : list str :=
  map star_key
      (List.filter (fun star => keep star
                                && negb (bool_decide (star_commands self (module_path star) = [])))
                   stars).

(** The trigger commands of the configuration entries, in order. *)
Definition triggers_of (l : list pyval) : list str :=
  omap (fun it => match entry_of it with
                  | Some (_, trigger_command) => Some trigger_command
                  | None => None
                  end) l.

(** Sample instances used to exercise the statements below. *)
Module Samples.
(** A drawer whose image is the concatenated extension names it was given. *)
Definition names_drawer : AstrBotHelpDrawer :=
  {| draw_help_image := fun d => Some (concat (od_keys d)) |}.

Definition star (n m : string) (id : nat) (active : bool) : StarMetadata :=
  {| name := Val (lit n); star_cls := Some (StarInstance id);
     module_path := Some (lit m); activated := active |}.

Definition command (m c d : string) : registry_item :=
  Handler {| handler_module_path := lit m; desc := Some (lit d);
             event_filters := [OtherFilter; CommandFilter (lit c)] |}.

Definition plugin (stars : option (list StarMetadata))
    (callers entries : list string) (reg : list registry_item) : MyPlugin :=
  {| context := {| get_all_stars := stars |};
     config := Some {| whitelist := Some (map (fun s => PyStr (lit s)) callers);
                       plugin_whitelist := Some (map (fun s => PyStr (lit s)) entries) |};
     drawer := names_drawer;
     self_id := 0;
     star_handlers_registry := reg |}.

Definition weather_host : option (list StarMetadata) :=
  Some [star "Weather" "weather.mod" 1 true].

Definition weather_registry : list registry_item :=
  [command "weather.mod" "forecast" "show forecast"].

Definition payload (user_id : pyval) : gmap str pyval :=
  {[ lit "user_id" := user_id ]}.

(** A host where the core extension ["astrbot"] and the plugin itself
    (instance 0) are both activated and both named in the plugin whitelist. *)
Definition core_plugin : MyPlugin :=
  plugin (Some [star "astrbot" "core.mod" 1 true;
                star "astrbot_plugin_help" "help.mod" 0 true])
         [] ["astrbot-核心帮助"; "astrbot_plugin_help-帮助帮助"]%string
         [command "core.mod" "plugin" "manage plugins";
          command "help.mod" "帮助" "show help"].
End Samples.

(** * Properties *)

Example lit_ascii : lit "a-b" = [97; 45; 98].
Proof. reflexivity. Qed.

Example lit_cjk : lit "未知" = [26410; 30693].
Proof. reflexivity. Qed.

Example strip_both : strip (lit "  天气 帮助　 ") = lit "天气 帮助".
Proof. reflexivity. Qed.

Example split1_first : split1 dash (lit "A-b-c") = (lit "A", lit "b-c").
Proof. reflexivity. Qed.

Example py_str_int : py_str (PyInt 123) = lit "123" /\ py_str (PyInt (-7)) = lit "-7".
Proof. split; reflexivity. Qed.

(** The scenarios of the weather extension: one whitelist entry, and the
    extension activated or not. *)
Example weather_scan :
  get_plugin_whitelist_commands
    (Samples.plugin Samples.weather_host [] ["Weather-天气帮助"]%string
                    Samples.weather_registry)
  = [(lit "Weather", [lit "forecast#show forecast"])].
Proof. reflexivity. Qed.

Example weather_handler_active :
  commands (init (Samples.plugin Samples.weather_host [] ["Weather-天气帮助"]%string
                                 Samples.weather_registry)).2
  = [(lit "天气帮助", make_handler (lit "Weather"))]
  /\ make_handler (lit "Weather")
       (Samples.plugin Samples.weather_host [] ["Weather-天气帮助"]%string
                       Samples.weather_registry)
       (event_of None)
     = Returned [chain_result [Image_fromBytes (lit "Weather")]].
Proof. split; reflexivity. Qed.

Example weather_handler_deactivated :
  make_handler (lit "Weather")
    (Samples.plugin (Some [Samples.star "Weather" "weather.mod" 1 false]) []
                    ["Weather-天气帮助"]%string Samples.weather_registry)
    (event_of None)
  = Returned [plain_result (lit "插件 Weather 未找到或未激活")].
Proof. reflexivity. Qed.

(** ** Facts about insertion-ordered dictionaries *)

Section odict_facts.
Context {K V : Type} `{EqDecision K}.
Implicit Types (k : K) (v : V) (d : odict K V).

Lemma od_get_set_eq k v d : od_get k (od_set k v d) = Some v.
Proof.
  induction d as [|[k' v'] d IH]; simpl.
  - by rewrite decide_True.
  - destruct (decide (k' = k)) as [->|Hne]; simpl.
    + by rewrite decide_True.
    + by rewrite decide_False.
Qed.

Lemma od_get_set_ne k k' v d : k ≠ k' -> od_get k' (od_set k v d) = od_get k' d.
Proof.
  intros Hne. induction d as [|[k0 v0] d IH]; simpl.
  - by rewrite decide_False.
  - destruct (decide (k0 = k)) as [->|Hk]; simpl.
    + by rewrite !decide_False.
    + destruct (decide (k0 = k')); [done | apply IH].
Qed.

Lemma od_get_set k k' v d :
  od_get k' (od_set k v d) = if decide (k = k') then Some v else od_get k' d.
Proof.
  destruct (decide (k = k')) as [->|Hne];
    [apply od_get_set_eq | by apply od_get_set_ne].
Qed.

Lemma od_get_Some_elem k v d : od_get k d = Some v -> (k, v) ∈ d.
Proof.
  induction d as [|[k' v'] d IH]; simpl; [done|].
  destruct (decide (k' = k)) as [->|Hne].
  - intros [= ->]. apply list_elem_of_here.
  - intros H'. apply list_elem_of_further, IH, H'.
Qed.

Lemma od_get_None k d : od_get k d = None <-> k ∉ od_keys d.
Proof.
  induction d as [|[k' v'] d IH]; simpl.
  - split; [intros _; apply not_elem_of_nil | done].
  - rewrite not_elem_of_cons. destruct (decide (k' = k)) as [->|Hne].
    + split; [done | intros [? _]; done].
    + rewrite IH. split; [intros ?; split; [done|done] | intros [_ ?]; done].
Qed.

Lemma od_keys_get k d : k ∈ od_keys d <-> is_Some (od_get k d).
Proof.
  destruct (od_get k d) as [v|] eqn:E.
  - split; [eauto|]. intros _. apply od_get_Some_elem in E.
    apply list_elem_of_fmap. exists (k, v). done.
  - apply od_get_None in E. split; [done | intros [? ?]; done].
Qed.

Lemma od_keys_set k v d :
  od_keys (od_set k v d) = if od_mem k d then od_keys d else od_keys d ++ [k].
Proof.
  unfold od_mem. induction d as [|[k' v'] d IH]; simpl; [done|].
  destruct (decide (k' = k)) as [->|Hne]; simpl; [done|].
  rewrite IH. by destruct (od_get k d).
Qed.

Lemma od_keys_set_elem k k' v d :
  k' ∈ od_keys (od_set k v d) <-> k' = k \/ k' ∈ od_keys d.
Proof.
  rewrite !od_keys_get, od_get_set.
  destruct (decide (k = k')) as [->|Hne].
  - split; [by left | eauto].
  - split; [by right | intros [->|?]; done].
Qed.

Lemma od_set_NoDup k v d : NoDup (od_keys d) -> NoDup (od_keys (od_set k v d)).
Proof.
  intros Hnd. rewrite od_keys_set. unfold od_mem.
  destruct (od_get k d) eqn:E; [done|].
  apply od_get_None in E. apply NoDup_app. split_and!; [done | | apply NoDup_singleton].
  intros x Hx Hx'. apply list_elem_of_singleton in Hx'. by subst.
Qed.

Lemma od_elem_get k v d : NoDup (od_keys d) -> (k, v) ∈ d -> od_get k d = Some v.
Proof.
  induction d as [|[k' v'] d IH]; simpl.
  - intros _ H'. by apply elem_of_nil in H'.
  - intros Hnd H'. apply NoDup_cons in Hnd as [Hnotin Hnd].
    apply elem_of_cons in H' as [[= -> ->]|Hin].
    + by rewrite decide_True.
    + destruct (decide (k' = k)) as [->|Hne]; [|by apply IH].
      exfalso. apply Hnotin. apply list_elem_of_fmap. by exists (k, v).
Qed.

End odict_facts.

(** ** Access gate and full discovery *)

Section gate.
Variable self : MyPlugin.
Implicit Types (raw : gmap str pyval).

Lemma get_help_allowed raw :
  caller_allowed self raw -> get_help self (event_of (Some raw)) = discovery self.
Proof.
  unfold get_help, caller_allowed, caller_id. simpl.
  intros [Hw | [Hid | Hin]].
  - rewrite Hw. reflexivity.
  - rewrite Hid. by destruct (bool_decide (config_whitelist self = [])).
  - destruct (negb _ && _); [|done].
    by rewrite bool_decide_eq_false_2 by (intros Hn; apply Hn, Hin).
Qed.

Lemma get_help_denied raw :
  ~ caller_allowed self raw -> get_help self (event_of (Some raw)) = Returned [].
Proof.
  unfold get_help, caller_allowed, caller_id. simpl. intros Hn.
  rewrite (bool_decide_eq_false_2 (config_whitelist self = [])) by tauto.
  rewrite (bool_decide_eq_true_2 (_ ≠ PyNone)) by tauto. simpl.
  rewrite bool_decide_eq_true_2; [done | tauto].
Qed.

Lemma get_help_no_user_id raw :
  raw !! lit "user_id" = None ->
  get_help self (event_of (Some raw)) = discovery self.
Proof.
  intros Hnone. apply get_help_allowed. right; left.
  unfold caller_id. by rewrite Hnone.
Qed.
End gate.

(** C2: with an empty caller whitelist [get_help] proceeds to discovery for
    every caller; with the whitelist ["123"%string] the callers 123 (integer) and
    "123" (string) proceed and the caller 456 gets no reply at all; in
    general a caller with an id is let through exactly when the string form
    of the id is among the string forms of the whitelist entries. *)
Theorem access_gate_whitelist (self : MyPlugin) (raw : gmap str pyval) :
  (config_whitelist self = [] ->
     get_help self (event_of (Some raw)) = discovery self)
  /\ (config_whitelist self = [PyStr (lit "123")] ->
        (caller_id raw = PyInt 123 ->
           get_help self (event_of (Some raw)) = discovery self)
        /\ (caller_id raw = PyStr (lit "123") ->
              get_help self (event_of (Some raw)) = discovery self)
        /\ (caller_id raw = PyInt 456 ->
              get_help self (event_of (Some raw)) = Returned []))
  /\ (config_whitelist self ≠ [] -> caller_id raw ≠ PyNone ->
        get_help self (event_of (Some raw)) =
          if bool_decide (py_str (caller_id raw) ∈ map py_str (config_whitelist self))
          then discovery self else Returned []).
Proof.
  split_and!.
  - intros Hw. apply get_help_allowed. by left.
  - intros Hw. split_and!; intros Hid.
    + apply get_help_allowed. right; right. rewrite Hw, Hid. by vm_compute; left.
    + apply get_help_allowed. right; right. rewrite Hw, Hid. by vm_compute; left.
    + apply get_help_denied. unfold caller_allowed. rewrite Hw, Hid.
      intros [? | [? | Hin]]; [done | done |].
      vm_compute in Hin. apply list_elem_of_singleton in Hin. done.
  - intros Hw Hid. case_bool_decide as Hin.
    + apply get_help_allowed. by right; right.
    + apply get_help_denied. unfold caller_allowed. tauto.
Qed.

Lemma access_gate_whitelist_witness :
  get_help (Samples.plugin Samples.weather_host ["123"%string] [] Samples.weather_registry)
           (event_of (Some (Samples.payload (PyInt 456)))) = Returned []
  /\ get_help (Samples.plugin Samples.weather_host ["123"%string] [] Samples.weather_registry)
              (event_of (Some (Samples.payload (PyInt 123))))
     = Returned [chain_result [Image_fromBytes (lit "Weather")]].
Proof.
  split.
  - destruct (access_gate_whitelist
                (Samples.plugin Samples.weather_host ["123"%string] [] Samples.weather_registry)
                (Samples.payload (PyInt 456))) as (_ & H123 & _).
    destruct (H123 eq_refl) as (_ & _ & Hdenied).
    apply Hdenied. vm_compute. reflexivity.
  - destruct (access_gate_whitelist
                (Samples.plugin Samples.weather_host ["123"%string] [] Samples.weather_registry)
                (Samples.payload (PyInt 123))) as (_ & H123 & _).
    destruct (H123 eq_refl) as (Hint & _ & _).
    etransitivity; [apply Hint; vm_compute; reflexivity | vm_compute; reflexivity].
Defined.

(** C3: an event whose message object carries no raw payload makes
    [get_help] raise at [raw.get] (line 81), whatever the whitelist: the
    caller is not treated as allowed and the fault leaves the entry point. *)
Theorem get_help_without_payload (self : MyPlugin) :
  get_help self (event_of None) = Raised [].
Proof. reflexivity. Qed.

(** C8: when [context.get_all_stars()] raises, [get_all_commands] returns the
    empty mapping, and [get_help], for a caller the gate lets through,
    yields the one plain-text reply and no image. *)
Theorem registry_failure_fails_soft (self : MyPlugin)
    (Hraise : get_all_stars (context self) = None) :
  get_all_commands self = []
  /\ discovery self = Returned [plain_result (lit "没有找到任何插件或命令")]
  /\ forall raw, caller_allowed self raw ->
       get_help self (event_of (Some raw))
       = Returned [plain_result (lit "没有找到任何插件或命令")].
Proof.
  assert (Hempty : get_all_commands self = []).
  { unfold get_all_commands. by rewrite Hraise. }
  assert (Hdisc : discovery self
                  = Returned [plain_result (lit "没有找到任何插件或命令")]).
  { unfold discovery. by rewrite Hempty. }
  split_and!; [done | done |].
  intros raw Hallowed. by rewrite get_help_allowed.
Qed.

Lemma registry_failure_fails_soft_witness :
  get_all_commands (Samples.plugin None [] [] Samples.weather_registry) = []
  /\ get_help (Samples.plugin None [] [] Samples.weather_registry)
              (event_of (Some (Samples.payload (PyInt 456))))
     = Returned [plain_result (lit "没有找到任何插件或命令")].
Proof.
  destruct (registry_failure_fails_soft
              (Samples.plugin None [] [] Samples.weather_registry) eq_refl)
    as (Hempty & _ & Hreply).
  split; [exact Hempty |].
  apply Hreply. left. reflexivity.
Defined.

(** ** Whitelist parser *)

(** Loops of the shape [for it in l: if ...: d[k] = v]. *)
Section fold_set_facts.
Context {I K V : Type} `{EqDecision K} (kv : I -> option (K * V)).
Implicit Types (it : I) (l pre post : list I) (k : K) (v : V) (d : odict K V).

Lemma fold_put_skip pre it post d :
  kv it = None ->
  fold_left (put kv) (pre ++ it :: post) d = fold_left (put kv) (pre ++ post) d.
Proof.
  intros Hnone. rewrite !fold_left_app. simpl. unfold put at 2. by rewrite Hnone.
Qed.

Lemma fold_put_untouched k l d :
  Forall (fun it => forall k' v', kv it = Some (k', v') -> k' ≠ k) l ->
  od_get k (fold_left (put kv) l d) = od_get k d.
Proof.
  intros Hl. revert d. induction Hl as [|it l Hit _ IH]; intros d; simpl; [done|].
  rewrite IH. unfold put. destruct (kv it) as [[k' v']|] eqn:E; [|done].
  apply od_get_set_ne. by eapply Hit.
Qed.

Lemma fold_put_last k v pre it post d :
  kv it = Some (k, v) ->
  Forall (fun it' => forall k' v', kv it' = Some (k', v') -> k' ≠ k) post ->
  od_get k (fold_left (put kv) (pre ++ it :: post) d) = Some v.
Proof.
  intros Hit Hpost. rewrite fold_left_app. simpl.
  rewrite fold_put_untouched by done.
  unfold put at 1. rewrite Hit. apply od_get_set_eq.
Qed.

Lemma fold_put_origin k v l d :
  od_get k (fold_left (put kv) l d) = Some v ->
  od_get k d = Some v \/ exists it, it ∈ l /\ kv it = Some (k, v).
Proof.
  revert d. induction l as [|it l IH]; intros d; simpl; [by left|].
  intros Hget. apply IH in Hget as [Hget | (it' & Hin & Hit')].
  - unfold put in Hget. destruct (kv it) as [[k' v']|] eqn:E; [|by left].
    rewrite od_get_set in Hget. case_decide as Hk; [|by left].
    right. exists it. split; [apply list_elem_of_here | congruence].
  - right. exists it'. split; [by apply list_elem_of_further | done].
Qed.

Lemma fold_put_NoDup l d :
  NoDup (od_keys d) -> NoDup (od_keys (fold_left (put kv) l d)).
Proof.
  revert d. induction l as [|it l IH]; intros d Hd; simpl; [done|].
  apply IH. unfold put. destruct (kv it) as [[k v]|]; [by apply od_set_NoDup | done].
Qed.

End fold_set_facts.

Lemma parse_item_put d item : parse_item d item = put by_trigger d item.
Proof.
  unfold parse_item, put, by_trigger, entry_of.
  destruct item as [| |?|s]; try done. by destruct (contains dash s).
Qed.

Lemma index_item_put d item : index_item d item = put entry_of d item.
Proof.
  unfold index_item, put, entry_of.
  destruct item as [| |?|s]; try done. by destruct (contains dash s).
Qed.

Lemma fold_left_ext_eq {A B} (f g : A -> B -> A) l a :
  (forall a b, f a b = g a b) -> fold_left f l a = fold_left g l a.
Proof.
  intros Hfg. revert a. induction l as [|b l IH]; intros a; simpl; [done|].
  by rewrite Hfg, IH.
Qed.

Lemma parse_fold l d : fold_left parse_item l d = fold_left (put by_trigger) l d.
Proof. apply fold_left_ext_eq, parse_item_put. Qed.

Lemma index_fold l d : fold_left index_item l d = fold_left (put entry_of) l d.
Proof. apply fold_left_ext_eq, index_item_put. Qed.

Lemma index_NoDup l : NoDup (od_keys (whitelist_index l)).
Proof.
  unfold whitelist_index. rewrite index_fold.
  apply fold_put_NoDup, NoDup_nil_2.
Qed.

Lemma parse_NoDup self : NoDup (od_keys (_parse_whitelist_config self)).
Proof.
  unfold _parse_whitelist_config. rewrite parse_fold.
  apply fold_put_NoDup, NoDup_nil_2.
Qed.

(** Splitting ["A-B"] at the first ['-']. *)
Lemma split1_first_dash (A B : str) :
  dash ∉ A -> split1 dash (A ++ dash :: B) = (A, B).
Proof.
  intros HA. unfold split1. induction A as [|c A IH]; simpl; [done|].
  apply not_elem_of_cons in HA as [Hc HA].
  destruct (N.eqb_spec c dash) as [->|_]; [done|].
  specialize (IH HA). by injection IH as -> ->.
Qed.

Lemma contains_dash_mid (A B : str) : contains dash (A ++ dash :: B) = true.
Proof.
  unfold contains. apply bool_decide_eq_true_2.
  apply elem_of_app. right. apply list_elem_of_here.
Qed.

Lemma entry_of_form (A B : str) :
  dash ∉ A -> entry_of (PyStr (A ++ dash :: B)) = Some (strip A, strip B).
Proof.
  intros HA. unfold entry_of. rewrite contains_dash_mid.
  pose proof (split1_first_dash A B HA) as Hs. unfold split1 in Hs.
  by injection Hs as -> ->.
Qed.

Lemma parse_lookup_last self pre post (A B : str) :
  dash ∉ A ->
  config_plugin_whitelist self = pre ++ PyStr (A ++ dash :: B) :: post ->
  Forall (fun it => forall p t, entry_of it = Some (p, t) -> t ≠ strip B) post ->
  od_get (strip B) (_parse_whitelist_config self) = Some (strip A).
Proof.
  intros HA Hcfg Hpost. pose proof (entry_of_form A B HA) as Hentry.
  unfold _parse_whitelist_config. rewrite Hcfg, parse_fold.
  apply fold_put_last; [unfold by_trigger; by rewrite Hentry |].
  eapply Forall_impl; [exact Hpost |]. intros it Hit k' v' Hkv.
  unfold by_trigger in Hkv. destruct (entry_of it) as [[p t]|] eqn:E; [|done].
  injection Hkv as <- <-. by eapply Hit.
Qed.

Lemma index_lookup_last l pre post (A B : str) :
  dash ∉ A ->
  l = pre ++ PyStr (A ++ dash :: B) :: post ->
  Forall (fun it => forall p t, entry_of it = Some (p, t) -> p ≠ strip A) post ->
  od_get (strip A) (whitelist_index l) = Some (strip B).
Proof.
  intros HA -> Hpost. pose proof (entry_of_form A B HA) as Hentry.
  unfold whitelist_index. rewrite index_fold.
  apply fold_put_last; [done |].
  eapply Forall_impl; [exact Hpost |]. intros it Hit k' v' Hkv. by eapply Hit.
Qed.

Section fold_set_last.
Context {I K V : Type} `{EqDecision K} (kv : I -> option (K * V)).
Implicit Types (it : I) (l : list I) (k : K) (v : V) (d : odict K V).

Lemma fold_put_get k l d :
  od_get k (fold_left (put kv) l d)
  = match last (assigned kv k l) with
    | Some v => Some v
    | None => od_get k d
    end.
Proof.
  induction l as [|it l IH] using rev_ind; [done|].
  rewrite fold_left_app. simpl. unfold assigned. rewrite omap_app. simpl.
  unfold put at 1. destruct (kv it) as [[k' v]|] eqn:E; simpl.
  - rewrite od_get_set. destruct (decide (k' = k)) as [->|Hne]; simpl.
    + by rewrite last_snoc.
    + rewrite app_nil_r. apply IH.
  - rewrite app_nil_r. apply IH.
Qed.

Lemma fold_put_keys k l d :
  k ∈ od_keys (fold_left (put kv) l d)
  <-> k ∈ od_keys d \/ exists it v, it ∈ l /\ kv it = Some (k, v).
Proof.
  revert d. induction l as [|it l IH]; intros d; simpl.
  - split; [by left | intros [?|(? & ? & ?%elem_of_nil & _)]; done].
  - rewrite IH. unfold put. destruct (kv it) as [[k' v']|] eqn:E.
    + rewrite od_keys_set_elem. split.
      * intros [[->|?]|(it' & v & Hin & Hkv)]; [right | by left | right].
        -- exists it, v'. split; [apply list_elem_of_here | done].
        -- exists it', v. split; [by apply list_elem_of_further | done].
      * intros [?|(it' & v & Hin & Hkv)]; [by left; right|].
        apply elem_of_cons in Hin as [->|Hin].
        -- left; left. congruence.
        -- right. by exists it', v.
    + split.
      * intros [?|(it' & v & Hin & Hkv)]; [by left | right].
        exists it', v. split; [by apply list_elem_of_further | done].
      * intros [?|(it' & v & Hin & Hkv)]; [by left|].
        apply elem_of_cons in Hin as [->|Hin]; [congruence|].
        right. by exists it', v.
Qed.
End fold_set_last.

Lemma parsed_pair_entry self t p :
  (t, p) ∈ od_items (_parse_whitelist_config self) ->
  exists it, it ∈ config_plugin_whitelist self /\ entry_of it = Some (p, t).
Proof.
  intros Hin. apply od_elem_get in Hin; [|apply parse_NoDup].
  unfold _parse_whitelist_config in Hin. rewrite parse_fold in Hin.
  apply fold_put_origin in Hin as [Hin | (it & Hit & Hkv)]; [done|].
  exists it. split; [done|]. unfold by_trigger in Hkv.
  destruct (entry_of it) as [[p' t']|]; [|done]. by injection Hkv as -> ->.
Qed.

Lemma indexed_pair_entry l p t :
  (p, t) ∈ od_items (whitelist_index l) ->
  exists it, it ∈ l /\ entry_of it = Some (p, t).
Proof.
  intros Hin. apply od_elem_get in Hin; [|apply index_NoDup].
  unfold whitelist_index in Hin. rewrite index_fold in Hin.
  apply fold_put_origin in Hin as [Hin | (it & Hit & Hkv)]; [done|].
  by exists it.
Qed.

Lemma parse_keys_iff self t :
  t ∈ od_keys (_parse_whitelist_config self)
  <-> exists it p, it ∈ config_plugin_whitelist self /\ entry_of it = Some (p, t).
Proof.
  unfold _parse_whitelist_config. rewrite parse_fold, fold_put_keys. split.
  - intros [?%elem_of_nil|(it & p & Hin & Hkv)]; [done|].
    exists it, p. split; [done|]. unfold by_trigger in Hkv.
    destruct (entry_of it) as [[p' t']|]; [|done]. by injection Hkv as -> ->.
  - intros (it & p & Hin & Hentry). right. exists it, p. split; [done|].
    unfold by_trigger. by rewrite Hentry.
Qed.

Lemma index_keys_iff l p :
  p ∈ od_keys (whitelist_index l)
  <-> exists it t, it ∈ l /\ entry_of it = Some (p, t).
Proof.
  unfold whitelist_index. rewrite index_fold, fold_put_keys.
  split; [intros [?%elem_of_nil|?]; done | by right].
Qed.

Lemma bound_extension_listed self t p :
  od_get t (_parse_whitelist_config self) = Some p ->
  od_mem p (whitelist_index (config_plugin_whitelist self)) = true.
Proof.
  intros Hget. apply od_get_Some_elem, parsed_pair_entry in Hget as (it & Hin & Hentry).
  assert (Hp : p ∈ od_keys (whitelist_index (config_plugin_whitelist self))).
  { apply index_keys_iff. by exists it, t. }
  apply od_keys_get in Hp as [v Hv]. unfold od_mem. by rewrite Hv.
Qed.

(** C5 (as stated, refuted): a later entry with the same key takes the
    mapping over: with ["A-x"; "C-x"] the parser maps trigger ["x"] to ["C"],
    not to ["A"], and with ["A-x"; "A-y"] the extension-keyed view maps
    ["A"] to ["y"], not to ["x"]. *)
Lemma later_entry_takes_key :
  od_get (lit "x")
         (_parse_whitelist_config (Samples.plugin None [] ["A-x"; "C-x"]%string []))
  = Some (lit "C")
  /\ lit "C" ≠ lit "A"
  /\ od_get (lit "A")
            (whitelist_index
               (config_plugin_whitelist
                  (Samples.plugin None [] ["A-x"; "A-y"]%string [])))
     = Some (lit "y")
  /\ lit "y" ≠ lit "x".
Proof. split_and!; [reflexivity | discriminate | reflexivity | discriminate]. Qed.

(** C5 (amended): for an entry ["A-B"] of the configuration (split at its
    first ['-'], so [B] may contain ['-']), the parsed whitelist maps
    trigger [strip B] to extension [strip A] provided no later entry has the
    trigger [strip B], and the extension-keyed view maps [strip A] to
    [strip B] provided no later entry names the extension [strip A]; an item
    without ['-'] contributes nothing to either view, and the parser never
    fails. *)
Theorem whitelist_parser_entries (self : MyPlugin) (pre post : list pyval)
    (item : pyval)
    (Hcfg : config_plugin_whitelist self = pre ++ item :: post) :
  (forall A B : str, item = PyStr (A ++ dash :: B) -> dash ∉ A ->
     split1 dash (A ++ dash :: B) = (A, B)
     /\ (Forall (fun it => forall p t, entry_of it = Some (p, t) -> t ≠ strip B) post ->
           od_get (strip B) (_parse_whitelist_config self) = Some (strip A))
     /\ (Forall (fun it => forall p t, entry_of it = Some (p, t) -> p ≠ strip A) post ->
           od_get (strip A) (whitelist_index (config_plugin_whitelist self))
           = Some (strip B)))
  /\ ((forall s, item = PyStr s -> dash ∉ s) ->
        _parse_whitelist_config self = fold_left parse_item (pre ++ post) []
        /\ whitelist_index (config_plugin_whitelist self) = whitelist_index (pre ++ post)).
Proof.
  split.
  - intros A B -> HA. split_and!.
    + by apply split1_first_dash.
    + intros Hpost. by eapply parse_lookup_last.
    + intros Hpost. by eapply index_lookup_last.
  - intros Hnodash.
    assert (Hnone : entry_of item = None).
    { unfold entry_of. destruct item as [| |?|s]; try done.
      unfold contains. by rewrite bool_decide_eq_false_2 by by apply Hnodash. }
    unfold _parse_whitelist_config, whitelist_index. rewrite Hcfg.
    rewrite !parse_fold, !index_fold. split.
    + apply fold_put_skip. unfold by_trigger. by rewrite Hnone.
    + by apply fold_put_skip.
Qed.

Lemma whitelist_parser_entries_witness :
  od_get (lit "天气-帮助")
         (_parse_whitelist_config
            (Samples.plugin None [] [" Weather - 天气-帮助 "; "nodash"]%string []))
  = Some (lit "Weather").
Proof.
  destruct (whitelist_parser_entries
              (Samples.plugin None [] [" Weather - 天气-帮助 "; "nodash"]%string [])
              [] [PyStr (lit "nodash")] (PyStr (lit " Weather - 天气-帮助 ")) eq_refl)
    as [Hentry _].
  destruct (Hentry (lit " Weather ") (lit " 天气-帮助 ") eq_refl)
    as (_ & Hfinal & _).
  - vm_compute. intros Hin. repeat (apply elem_of_cons in Hin as [Hin|Hin]; [done|]).
    by apply elem_of_nil in Hin.
  - apply Hfinal. repeat constructor. intros p t Hpt. vm_compute in Hpt. done.
Defined.

(** C6 (as stated, refuted): the entries ["A-"] and ["-B"] are kept, with an
    empty trigger command and an empty extension name. *)
Lemma parser_keeps_empty_parts :
  _parse_whitelist_config (Samples.plugin None [] ["A-"; "-B"]%string [])
  = [([], lit "A"); (lit "B", [])]
  /\ whitelist_index
       (config_plugin_whitelist (Samples.plugin None [] ["A-"; "-B"]%string []))
     = [(lit "A", []); ([], lit "B")].
Proof. split; reflexivity. Qed.

Lemma entry_of_dashed (s : str) :
  contains dash s = true ->
  entry_of (PyStr s) = Some (strip (before_first dash s), strip (after_first dash s)).
Proof. intros Hdash. unfold entry_of. by rewrite Hdash. Qed.

Lemma entry_of_string it p t :
  entry_of it = Some (p, t) ->
  exists s, it = PyStr s /\ contains dash s = true
            /\ t = strip (after_first dash s) /\ p = strip (before_first dash s).
Proof.
  unfold entry_of. destruct it as [| |?|s]; try done.
  destruct (contains dash s) eqn:Hdash; [|done].
  intros [= <- <-]. by exists s.
Qed.

(** C6 (amended): every pair of the parsed whitelist maps is the trimmed
    right and left part, around the first ['-'], of a string entry of the
    configuration that contains ['-']; conversely no such entry is dropped,
    whatever its parts trim to: its trimmed right part is a key of the
    trigger-keyed map and its trimmed left part a key of the extension-keyed
    map.  So all components of all pairs are non-empty exactly when every
    such entry has non-empty text on both sides of its first ['-'] after
    trimming. *)
Theorem parsed_pairs_origin (self : MyPlugin) :
  (forall trigger_command plugin_name,
     (trigger_command, plugin_name) ∈ od_items (_parse_whitelist_config self)
     \/ (plugin_name, trigger_command)
          ∈ od_items (whitelist_index (config_plugin_whitelist self)) ->
     exists s, PyStr s ∈ config_plugin_whitelist self
               /\ contains dash s = true
               /\ trigger_command = strip (after_first dash s)
               /\ plugin_name = strip (before_first dash s))
  /\ (forall s, PyStr s ∈ config_plugin_whitelist self -> contains dash s = true ->
        strip (after_first dash s) ∈ od_keys (_parse_whitelist_config self)
        /\ strip (before_first dash s)
             ∈ od_keys (whitelist_index (config_plugin_whitelist self)))
  /\ ((forall trigger_command plugin_name,
         (trigger_command, plugin_name) ∈ od_items (_parse_whitelist_config self)
         \/ (plugin_name, trigger_command)
              ∈ od_items (whitelist_index (config_plugin_whitelist self)) ->
         trigger_command ≠ [] /\ plugin_name ≠ [])
      <-> (forall s, PyStr s ∈ config_plugin_whitelist self -> contains dash s = true ->
             strip (after_first dash s) ≠ [] /\ strip (before_first dash s) ≠ [])).
Proof.
  assert (Horigin : forall t p,
     (t, p) ∈ od_items (_parse_whitelist_config self)
     \/ (p, t) ∈ od_items (whitelist_index (config_plugin_whitelist self)) ->
     exists s, PyStr s ∈ config_plugin_whitelist self
               /\ contains dash s = true
               /\ t = strip (after_first dash s)
               /\ p = strip (before_first dash s)).
  { intros t p Hin.
    assert (Hentry : exists it, it ∈ config_plugin_whitelist self
                                /\ entry_of it = Some (p, t)).
    { destruct Hin as [Hin|Hin];
        [by apply parsed_pair_entry | by apply indexed_pair_entry]. }
    destruct Hentry as (it & Hit & Hkv).
    apply entry_of_string in Hkv as (s & -> & ? & ? & ?). by exists s. }
  assert (Hkept : forall s, PyStr s ∈ config_plugin_whitelist self ->
        contains dash s = true ->
        strip (after_first dash s) ∈ od_keys (_parse_whitelist_config self)
        /\ strip (before_first dash s)
             ∈ od_keys (whitelist_index (config_plugin_whitelist self))).
  { intros s Hs Hdash. pose proof (entry_of_dashed s Hdash) as Hentry. split.
    - apply parse_keys_iff. by exists (PyStr s), (strip (before_first dash s)).
    - apply index_keys_iff. by exists (PyStr s), (strip (after_first dash s)). }
  split_and!; [done | done |]. split.
  - intros Hall s Hs Hdash. destruct (Hkept s Hs Hdash) as [Ht Hp]. split.
    + apply od_keys_get in Ht as [p Hget]. apply od_get_Some_elem in Hget.
      by destruct (Hall _ p (or_introl Hget)).
    + apply od_keys_get in Hp as [t Hget]. apply od_get_Some_elem in Hget.
      by destruct (Hall t _ (or_intror Hget)).
  - intros Hparts t p Hin. destruct (Horigin t p Hin) as (s & Hs & Hdash & -> & ->).
    by apply Hparts.
Qed.

Lemma parsed_pairs_origin_witness :
  ([] : list N)
    ∈ od_keys (_parse_whitelist_config
                 (Samples.plugin None [] ["A-"; "B-y"]%string []))
  /\ lit "A"
       ∈ od_keys (whitelist_index
                    (config_plugin_whitelist
                       (Samples.plugin None [] ["A-"; "B-y"]%string []))).
Proof.
  destruct (parsed_pairs_origin (Samples.plugin None [] ["A-"; "B-y"]%string []))
    as (_ & Hkept & _).
  apply (Hkept (lit "A-")); [|reflexivity].
  vm_compute. apply list_elem_of_here.
Defined.

(** ** Handler synthesis *)

Lemma create_commands l st :
  commands (fold_left create_handler l st)
  = commands st ++ map (fun it => (it.1, make_handler it.2)) l.
Proof.
  revert st. induction l as [|[c p] l IH]; intros st; simpl.
  - by rewrite app_nil_r.
  - rewrite IH. simpl. by rewrite <- app_assoc.
Qed.

Lemma create_attributes_untouched n l st :
  Forall (fun it => handler_name it.1 ≠ n) l ->
  attributes (fold_left create_handler l st) !! n = attributes st !! n.
Proof.
  intros Hl. revert st. induction Hl as [|[c p] l Hcp _ IH]; intros st; simpl; [done|].
  rewrite IH. simpl. by apply lookup_insert_ne.
Qed.

Lemma create_attributes_last pre c p post st :
  Forall (fun it => handler_name it.1 ≠ handler_name c) post ->
  attributes (fold_left create_handler (pre ++ (c, p) :: post) st) !! handler_name c
  = Some (make_handler p).
Proof.
  intros Hpost. rewrite fold_left_app. simpl.
  rewrite create_attributes_untouched by done. simpl. apply lookup_insert_eq.
Qed.

Lemma replace_no_space (c : str) : space ∉ c -> replace space underscore c = c.
Proof.
  induction c as [|x c IH]; simpl; [done|]. intros Hx.
  apply not_elem_of_cons in Hx as [Hx Hc]. rewrite IH by done.
  destruct (N.eqb_spec x space); [congruence | done].
Qed.

Lemma replace_no_underscore_inj (c1 c2 : str) :
  underscore ∉ c1 -> underscore ∉ c2 ->
  replace space underscore c1 = replace space underscore c2 -> c1 = c2.
Proof.
  revert c2. induction c1 as [|x c1 IH]; intros [|y c2]; simpl; try done.
  intros H1 H2 [= Hxy Hrest].
  apply not_elem_of_cons in H1 as [Hx H1]. apply not_elem_of_cons in H2 as [Hy H2].
  f_equal; [|by apply IH].
  destruct (N.eqb_spec x space), (N.eqb_spec y space); congruence.
Qed.

Lemma handler_name_eq (c1 c2 : str) :
  handler_name c1 = handler_name c2
  <-> replace space underscore c1 = replace space underscore c2.
Proof.
  unfold handler_name. split; [apply app_inv_head | by intros ->].
Qed.

(** C4 (as stated, refuted): the triggers ["a b"] and ["a_b"] are distinct
    whitelist entries with the same handler name; the second [setattr]
    replaces the attribute made for the first. *)
Lemma handler_name_collision :
  od_keys (init (Samples.plugin None [] ["X-a b"; "Y-a_b"]%string [])).1
  = [lit "a b"; lit "a_b"]
  /\ lit "a b" ≠ lit "a_b"
  /\ handler_name (lit "a b") = handler_name (lit "a_b")
  /\ attributes (init (Samples.plugin None [] ["X-a b"; "Y-a_b"]%string [])).2
       !! handler_name (lit "a b") = Some (make_handler (lit "Y"))
  /\ size (attributes (init (Samples.plugin None [] ["X-a b"; "Y-a_b"]%string [])).2) = 1%nat.
Proof.
  split_and!; [reflexivity | discriminate | reflexivity | |].
  - unfold init, _create_whitelist_handlers.
    replace (od_items (_parse_whitelist_config _))
      with ([] ++ [(lit "a b", lit "X")] ++ (lit "a_b", lit "Y") :: [])
      by reflexivity.
    rewrite app_assoc.
    replace (handler_name (lit "a b")) with (handler_name (lit "a_b")) by reflexivity.
    apply create_attributes_last. constructor.
  - unfold init, _create_whitelist_handlers.
    replace (od_items (_parse_whitelist_config _))
      with [(lit "a b", lit "X"); (lit "a_b", lit "Y")] by reflexivity.
    simpl. replace (handler_name (lit "a b")) with (handler_name (lit "a_b")) by reflexivity.
    rewrite insert_insert_eq, insert_empty. apply map_size_singleton.
Qed.

(** C4 (amended): the handler name is ["whitelist_"] followed by the trigger
    with every space replaced by ['_']; two triggers get the same name
    exactly when they agree after that replacement, so distinct triggers
    without spaces (or without underscores) get distinct names, and when no
    trigger of the whitelist contains a space every entry keeps the
    attribute made for it. *)
Theorem handler_names_distinct (self : MyPlugin) (c1 c2 : str) :
  (handler_name c1 = handler_name c2
     <-> replace space underscore c1 = replace space underscore c2)
  /\ (space ∉ c1 -> space ∉ c2 -> c1 ≠ c2 -> handler_name c1 ≠ handler_name c2)
  /\ (underscore ∉ c1 -> underscore ∉ c2 -> c1 ≠ c2 ->
        handler_name c1 ≠ handler_name c2)
  /\ ((forall c, c ∈ od_keys (init self).1 -> space ∉ c) ->
      forall p, od_get c1 (init self).1 = Some p ->
        attributes (init self).2 !! handler_name c1 = Some (make_handler p)).
Proof.
  split_and!.
  - apply handler_name_eq.
  - intros H1 H2 Hne Heq. apply handler_name_eq in Heq.
    rewrite !replace_no_space in Heq by done. done.
  - intros H1 H2 Hne Heq. apply handler_name_eq in Heq.
    by apply Hne, replace_no_underscore_inj.
  - intros Hkeys p Hget. unfold init in *. simpl in *.
    pose proof (parse_NoDup self) as Hnd.
    unfold _create_whitelist_handlers, od_items.
    apply od_get_Some_elem, list_elem_of_split in Hget as (pre & post & Hwc).
    rewrite Hwc in Hkeys, Hnd |- *.
    apply create_attributes_last. apply Forall_forall. intros [c p'] Hin Heq.
    simpl in Heq. apply handler_name_eq in Heq.
    unfold od_keys in Hkeys, Hnd. rewrite fmap_app in Hkeys, Hnd. simpl in Hkeys, Hnd.
    assert (Hc : c ∈ pre.*1 ++ c1 :: post.*1).
    { apply elem_of_app. right. apply list_elem_of_further.
      apply list_elem_of_fmap. by exists (c, p'). }
    rewrite !replace_no_space in Heq.
    + subst c. apply NoDup_app in Hnd as (_ & _ & Hnd).
      apply NoDup_cons in Hnd as [Hnotin _]. apply Hnotin.
      apply list_elem_of_fmap. by exists (c1, p').
    + apply Hkeys. apply elem_of_app. right. apply list_elem_of_here.
    + by apply Hkeys.
Qed.

Lemma handler_names_distinct_witness :
  handler_name (lit "cmdA") ≠ handler_name (lit "cmdB")
  /\ attributes (init (Samples.plugin None [] ["A-cmdA"; "B-cmdB"]%string [])).2
       !! handler_name (lit "cmdA") = Some (make_handler (lit "A")).
Proof.
  destruct (handler_names_distinct
              (Samples.plugin None [] ["A-cmdA"; "B-cmdB"]%string [])
              (lit "cmdA") (lit "cmdB")) as (_ & Hspace & _ & Hattr).
  split.
  - apply Hspace; [| | discriminate]; vm_compute; intros Hin;
      repeat (apply elem_of_cons in Hin as [Hin|Hin]; [done|]);
      by apply elem_of_nil in Hin.
  - apply Hattr; [|reflexivity]. intros c Hc. vm_compute in Hc.
    repeat (apply elem_of_cons in Hc as [Hc|Hc];
            [subst c; vm_compute; intros Hin;
             repeat (apply elem_of_cons in Hin as [Hin|Hin]; [done|]);
             by apply elem_of_nil in Hin |]).
    by apply elem_of_nil in Hc.
Defined.

Lemma make_handler_inj (p p' : str) : make_handler p = make_handler p' -> p = p'.
Proof.
  intros Heq.
  pose (quiet := {| context := {| get_all_stars := None |}; config := None;
                    drawer := {| draw_help_image := fun _ => None |};
                    self_id := 0; star_handlers_registry := [] |}).
  assert (Hout : make_handler p quiet (event_of None)
                 = make_handler p' quiet (event_of None)).
  { by rewrite Heq. }
  unfold make_handler, whitelist_handler in Hout. simpl in Hout.
  injection Hout as Hout. by apply app_inv_tail in Hout.
Qed.

Lemma host_records_fold (calls : list (str * handler)) (r : handler_record) :
  record_name r = closure_name ->
  fold_left (fun registry call => register_command closure_name call.1 call.2 registry)
            calls [r]
  = [{| record_name := closure_name; record_handler := record_handler r;
        record_commands := record_commands r ++ calls.*1 |}].
Proof.
  revert r. induction calls as [|[c f] calls IH]; intros r Hname; simpl.
  - rewrite app_nil_r. destruct r; simpl in *. by rewrite Hname.
  - rewrite decide_True by done. rewrite IH by done. simpl.
    by rewrite <- app_assoc.
Qed.

(** C1: every closure the synthesizer makes is the function named
    [whitelist_handler], so the host files all the decorator calls of a
    construction under one record: its function is the closure made for
    the first whitelist entry and its command filters are all the triggers.
    The trigger of any later entry is thus attached to a handler bound to
    the first entry's extension, not to its own. *)
Theorem host_keeps_first_closure (self : MyPlugin) (t p : str)
    (rest : list (str * str))
    (Hfirst : od_items (_parse_whitelist_config self) = (t, p) :: rest) :
  host_records (commands (init self).2)
  = [{| record_name := closure_name; record_handler := make_handler p;
        record_commands := t :: rest.*1 |}]
  /\ forall t' p', od_get t' (_parse_whitelist_config self) = Some p' ->
       exists r, r ∈ host_records (commands (init self).2)
                 /\ t' ∈ record_commands r
                 /\ record_handler r = make_handler p
                 /\ (p' ≠ p -> record_handler r ≠ make_handler p').
Proof.
  assert (Hrecords : host_records (commands (init self).2)
            = [{| record_name := closure_name; record_handler := make_handler p;
                  record_commands := t :: rest.*1 |}]).
  { unfold init. simpl. unfold _create_whitelist_handlers. rewrite create_commands.
    rewrite Hfirst. unfold host_records. simpl.
    rewrite host_records_fold by done. simpl. do 3 f_equal.
    clear. induction rest as [|[c q] rest IH]; [done|]. cbn. f_equal. exact IH. }
  split; [done|]. intros t' p' Hget. rewrite Hrecords.
  eexists. split; [apply list_elem_of_here|]. simpl. split_and!.
  - apply od_get_Some_elem in Hget. unfold od_items in Hfirst. rewrite Hfirst in Hget.
    apply elem_of_cons in Hget as [[= -> ->]|Hin]; [apply list_elem_of_here|].
    apply list_elem_of_further, list_elem_of_fmap. by exists (t', p').
  - done.
  - intros Hne Heq. by apply Hne, eq_sym, make_handler_inj.
Qed.

Lemma host_keeps_first_closure_witness :
  exists r,
    r ∈ host_records
          (commands (init (Samples.plugin Samples.weather_host []
                             ["A-cmdA"; "B-cmdB"]%string Samples.weather_registry)).2)
    /\ lit "cmdB" ∈ record_commands r
    /\ record_handler r = make_handler (lit "A")
    /\ record_handler r ≠ make_handler (lit "B").
Proof.
  destruct (host_keeps_first_closure
              (Samples.plugin Samples.weather_host []
                 ["A-cmdA"; "B-cmdB"]%string Samples.weather_registry)
              (lit "cmdA") (lit "A") [(lit "cmdB", lit "B")] eq_refl)
    as [_ Hrecord].
  destruct (Hrecord (lit "cmdB") (lit "B") eq_refl) as (r & Hin & Hcmd & Hrun & Hnot).
  exists r. split_and!; [exact Hin | exact Hcmd | exact Hrun |].
  apply Hnot. discriminate.
Defined.

(** ** Registry scan *)

Lemma scan_handler_listed n mp d item k :
  listed k (scan_handler n mp d item)
  = match handler_command mp item with
    | Some fc => if decide (n = k) then add_new (listed k d) fc else listed k d
    | None => listed k d
    end.
Proof.
  unfold scan_handler, handler_command, listed.
  destruct item as [h|]; [|done].
  destruct (bool_decide (Some (handler_module_path h) ≠ mp)); [done|].
  destruct (truthy (first_command (event_filters h))); [|done].
  unfold add_new. destruct (decide (n = k)) as [->|Hne].
  - case_bool_decide; [done|]. by rewrite od_get_set_eq.
  - case_bool_decide; [done|]. by rewrite od_get_set_ne.
Qed.

Lemma scan_handler_keys n mp d item k :
  k ∈ od_keys (scan_handler n mp d item)
  <-> k ∈ od_keys d \/ (n = k /\ is_Some (handler_command mp item)).
Proof.
  unfold scan_handler, handler_command.
  destruct item as [h|]; [|split; [by left | by intros [?|[_ [? ?]]]]].
  destruct (bool_decide (Some (handler_module_path h) ≠ mp));
    [split; [by left | by intros [?|[_ [? ?]]]] |].
  destruct (truthy (first_command (event_filters h)));
    [|split; [by left | by intros [?|[_ [? ?]]]]].
  case_bool_decide as Hin.
  - split; [by left|]. intros [?|[<- _]]; [done|].
    apply od_keys_get. destruct (od_get n d); [eauto | by apply elem_of_nil in Hin].
  - rewrite od_keys_set_elem. split.
    + intros [->|?]; [right; eauto | by left].
    + intros [?|[<- _]]; [by right | by left].
Qed.

Lemma scan_handlers_listed self n mp d k :
  listed k (scan_handlers self n mp d)
  = if decide (n = k) then fold_left add_new (star_commands self mp) (listed k d)
    else listed k d.
Proof.
  unfold scan_handlers, star_commands.
  revert d. induction (star_handlers_registry self) as [|item l IH]; intros d; simpl.
  - by destruct (decide (n = k)).
  - rewrite IH, scan_handler_listed.
    destruct (handler_command mp item) as [fc|]; [|done].
    by destruct (decide (n = k)).
Qed.

Lemma scan_handlers_keys self n mp d k :
  k ∈ od_keys (scan_handlers self n mp d)
  <-> k ∈ od_keys d \/ (n = k /\ star_commands self mp ≠ []).
Proof.
  unfold scan_handlers, star_commands.
  revert d. induction (star_handlers_registry self) as [|item l IH]; intros d; simpl.
  - split; [by left | by intros [?|[_ ?]]].
  - rewrite IH, scan_handler_keys.
    destruct (handler_command mp item) as [fc|]; simpl.
    + split; [intros [[?|[-> _]]|[-> _]]; eauto | intros [?|[-> _]]; eauto].
    + split; [intros [[?|[_ [? ?]]]|?]; eauto; done | intros [?|?]; eauto].
Qed.

(** Both star loops, through [star_step]. *)
Section star_loop_facts.
Variable self : MyPlugin.
Variable keep : StarMetadata -> bool.

Lemma star_loop_listed k stars d :
  listed k (fold_left (star_step self keep) stars d)
  = fold_left add_new (contributions self keep k stars) (listed k d).
Proof.
  revert d. induction stars as [|star rest IH]; intros d; simpl; [done|].
  rewrite IH, fold_left_app. f_equal. unfold star_step.
  destruct (keep star); simpl; [|done].
  rewrite scan_handlers_listed. by case_bool_decide; case_decide.
Qed.

Lemma star_loop_keys k stars d :
  k ∈ od_keys (fold_left (star_step self keep) stars d)
  <-> k ∈ od_keys d \/ contributions self keep k stars ≠ [].
Proof.
  revert d. induction stars as [|star rest IH]; intros d; simpl.
  - split; [by left | by intros [?|?]].
  - rewrite IH. unfold star_step. destruct (keep star); simpl.
    + rewrite scan_handlers_keys. case_bool_decide as Hk.
      * split.
        -- intros [[?|[_ Hne]]|Hne]; [by left | |].
           ++ right. intros Happ. by apply app_eq_nil in Happ as [? _].
           ++ right. intros Happ. by apply app_eq_nil in Happ as [_ ?].
        -- intros [?|Hne]; [by left; left |].
           destruct (star_commands self (module_path star)) eqn:E;
             [by right | by left; right].
      * split; [intros [[?|[? _]]|?]; eauto; done | intros [?|?]; eauto].
    + done.
Qed.

Lemma star_loop_skip pre star post d :
  keep star = false ->
  fold_left (star_step self keep) (pre ++ star :: post) d = fold_left (star_step self keep) (pre ++ post) d.
Proof.
  intros Hskip. rewrite !fold_left_app. simpl. unfold star_step at 2.
  by rewrite Hskip.
Qed.

Lemma contributions_origin k stars fc :
  fc ∈ contributions self keep k stars ->
  exists star, star ∈ stars /\ keep star = true /\ star_key star = k
               /\ fc ∈ star_commands self (module_path star).
Proof.
  induction stars as [|star rest IH]; simpl; [by intros ?%elem_of_nil|].
  intros [Hin|Hin]%elem_of_app.
  - destruct (keep star) eqn:Hkeep; [|by apply elem_of_nil in Hin].
    simpl in Hin. case_bool_decide; [|by apply elem_of_nil in Hin].
    exists star. split_and!; [apply list_elem_of_here | done..].
  - destruct (IH Hin) as (s & Hs & ?). exists s. split; [by apply list_elem_of_further | done].
Qed.

Lemma contributions_elem k stars star fc :
  star ∈ stars -> keep star = true -> star_key star = k ->
  fc ∈ star_commands self (module_path star) ->
  fc ∈ contributions self keep k stars.
Proof.
  intros Hin Hkeep Hkey Hfc. induction stars as [|s rest IH]; [by apply elem_of_nil in Hin|].
  simpl. apply elem_of_app. apply elem_of_cons in Hin as [->|Hin].
  - left. rewrite Hkeep, bool_decide_eq_true_2 by done. done.
  - right. by apply IH.
Qed.

End star_loop_facts.

Lemma fold_add_new l acc : fold_left add_new l acc = acc ++ unseen acc l.
Proof.
  revert acc. induction l as [|x l IH]; intros acc; simpl.
  - by rewrite app_nil_r.
  - rewrite IH. unfold add_new. case_bool_decide; [done|].
    by rewrite <- app_assoc.
Qed.

Lemma unseen_elem seen l x : x ∈ unseen seen l <-> x ∈ l /\ x ∉ seen.
Proof.
  revert seen. induction l as [|y l IH]; intros seen; simpl.
  - split; [by intros ?%elem_of_nil | by intros [?%elem_of_nil _]].
  - case_bool_decide as Hy.
    + rewrite IH, elem_of_cons. split; [intros [? ?]; eauto|].
      intros [[->|?] ?]; [done | eauto].
    + rewrite !elem_of_cons, IH, elem_of_app, list_elem_of_singleton. split.
      * intros [->|[? Hx]]; [eauto | split; [eauto|]]. intros ?. apply Hx. eauto.
      * intros [[->|?] Hx]; [by left|]. destruct (decide (x = y)) as [->|Hne]; [by left|].
        right. split; [done|]. by intros [?|?].
Qed.

Lemma unseen_NoDup seen l : NoDup (unseen seen l).
Proof.
  revert seen. induction l as [|y l IH]; intros seen; simpl; [apply NoDup_nil_2|].
  case_bool_decide; [apply IH|]. apply NoDup_cons. split; [|apply IH].
  rewrite unseen_elem, elem_of_app, list_elem_of_singleton. intros [_ Hn]. apply Hn. eauto.
Qed.

Lemma unseen_sublist seen l : unseen seen l `sublist_of` l.
Proof.
  revert seen. induction l as [|y l IH]; intros seen; simpl; [done|].
  case_bool_decide; [by apply sublist_cons | by apply sublist_skip].
Qed.

Lemma py_eq_reserved (x : option str) :
  py_eq x (lit "astrbot") || py_eq x (lit "astrbot_plugin_help")
  || py_eq x (lit "astrbot-reminder")
  = match x with Some n => bool_decide (n ∈ reserved_names) | None => false end.
Proof.
  unfold py_eq, reserved_names. destruct x as [n|]; [|done].
  rewrite <- !bool_decide_or. apply bool_decide_ext.
  rewrite !elem_of_cons, elem_of_nil. split.
  - intros [[[= ->]|[= ->]]|[= ->]]; eauto.
  - intros [->|[->|[->|[]]]]; eauto.
Qed.

Lemma all_step_star_step self d star :
  all_step self d star = star_step self (kept_all self) d star.
Proof.
  unfold all_step, star_step, kept_all, star_key. rewrite py_eq_reserved.
  destruct (getattr_name star) as [n|]; simpl.
  - destruct (bool_decide (n ∈ reserved_names)); simpl; [done|].
    destruct (nonempty n), (truthy (module_path star)),
      (isinstance_Star (star_cls star)), (is_self self (star_cls star)); done.
  - by destruct (bool_decide ([] ∈ reserved_names)).
Qed.

Lemma whitelist_step_star_step self wc d star :
  whitelist_step self wc d star = star_step self (kept_whitelist self wc) d star.
Proof.
  unfold whitelist_step, star_step, kept_whitelist, star_key.
  destruct (getattr_name star) as [n|]; simpl.
  - destruct (od_mem n wc); simpl; [|done].
    destruct (nonempty n), (truthy (module_path star)),
      (isinstance_Star (star_cls star)), (is_self self (star_cls star)); done.
  - by destruct (od_mem [] wc).
Qed.

Lemma get_all_commands_fold self :
  get_all_commands self
  = fold_left (star_step self (kept_all self)) (active_stars self) [].
Proof.
  unfold get_all_commands, active_stars.
  destruct (get_all_stars (context self)) as [stars|]; [|done].
  destruct (List.filter activated stars) as [|s l] eqn:E; [done|].
  apply fold_left_ext_eq, all_step_star_step.
Qed.

Lemma star_loop_none self keep stars d :
  (forall star, star ∈ stars -> keep star = false) ->
  fold_left (star_step self keep) stars d = d.
Proof.
  revert d. induction stars as [|s l IH]; intros d Hskip; simpl; [done|].
  unfold star_step at 2. rewrite Hskip by apply list_elem_of_here.
  apply IH. intros star Hin. by apply Hskip, list_elem_of_further.
Qed.

Lemma get_plugin_whitelist_commands_fold self :
  get_plugin_whitelist_commands self
  = fold_left (star_step self
                 (kept_whitelist self (whitelist_index (config_plugin_whitelist self))))
              (active_stars self) [].
Proof.
  unfold get_plugin_whitelist_commands, active_stars.
  destruct (config_plugin_whitelist self) as [|it l] eqn:E.
  - symmetry. by apply star_loop_none.
  - destruct (get_all_stars (context self)) as [stars|]; [|done].
    apply fold_left_ext_eq, whitelist_step_star_step.
Qed.

Lemma star_loop_lookup self keep stars k cmds :
  od_get k (fold_left (star_step self keep) stars []) = Some cmds ->
  cmds = first_occurrences (contributions self keep k stars)
  /\ contributions self keep k stars ≠ [].
Proof.
  intros Hget. split.
  - pose proof (star_loop_listed self keep k stars []) as Hl.
    unfold listed in Hl. rewrite Hget in Hl. simpl in Hl.
    by rewrite fold_add_new in Hl.
  - assert (Hk : k ∈ od_keys (fold_left (star_step self keep) stars [])).
    { apply od_keys_get. eauto. }
    apply star_loop_keys in Hk as [Hk|Hk]; [by apply elem_of_nil in Hk | done].
Qed.

Lemma active_stars_elem self star :
  star ∈ active_stars self ->
  exists stars, get_all_stars (context self) = Some stars
                /\ star ∈ stars /\ activated star = true.
Proof.
  unfold active_stars. destruct (get_all_stars (context self)) as [stars|];
    [|by intros ?%elem_of_nil].
  intros Hin%list_elem_of_In%filter_In. destruct Hin as [Hin Hact].
  exists stars. by rewrite list_elem_of_In.
Qed.

Lemma elem_active_stars self stars star :
  get_all_stars (context self) = Some stars ->
  star ∈ stars -> activated star = true -> star ∈ active_stars self.
Proof.
  intros Hstars Hin Hact. unfold active_stars. rewrite Hstars.
  apply list_elem_of_In, filter_In. by rewrite <- list_elem_of_In.
Qed.

Lemma kept_all_true self star :
  kept_all self star = true ->
  getattr_name star = Some (star_key star)
  /\ (star_key star ∉ reserved_names)
  /\ is_self self (star_cls star) = false.
Proof.
  unfold kept_all, star_key. intros Hkept.
  repeat (apply andb_prop in Hkept as [Hkept ?]).
  split_and!.
  - by destruct (getattr_name star).
  - by apply negb_true_iff, bool_decide_eq_false in Hkept.
  - by apply negb_true_iff.
Qed.

Lemma active_stars_remove self pre star post (keep : StarMetadata -> bool) d :
  get_all_stars (context self) = Some (pre ++ star :: post) ->
  activated star = false \/ keep star = false ->
  fold_left (star_step self keep) (active_stars self) d
  = fold_left (star_step self keep) (List.filter activated (pre ++ post)) d.
Proof.
  intros Hstars Hout. unfold active_stars. rewrite Hstars, !List.filter_app. simpl.
  destruct (activated star) eqn:Hact; [|done].
  destruct Hout as [?|Hskip]; [done|]. by apply star_loop_skip.
Qed.

Lemma get_all_commands_key_origin self k :
  k ∈ od_keys (get_all_commands self) ->
  exists star, star ∈ active_stars self /\ kept_all self star = true
               /\ star_key star = k
               /\ star_commands self (module_path star) ≠ [].
Proof.
  intros Hk. rewrite get_all_commands_fold in Hk.
  apply star_loop_keys in Hk as [Hk|Hk]; [by apply elem_of_nil in Hk|].
  destruct (contributions self (kept_all self) k (active_stars self))
    as [|fc l] eqn:E; [done|].
  destruct (contributions_origin self (kept_all self) k (active_stars self) fc)
    as (star & Hin & Hkept & Hkey & Hfc).
  { rewrite E. apply list_elem_of_here. }
  exists star. split_and!; try done. intros Hnil. rewrite Hnil in Hfc.
  by apply elem_of_nil in Hfc.
Qed.

Lemma get_all_commands_not_reserved self n :
  n ∈ reserved_names -> n ∉ od_keys (get_all_commands self).
Proof.
  intros Hn Hk.
  destruct (get_all_commands_key_origin self n Hk) as (star & _ & Hkept & <- & _).
  by apply kept_all_true in Hkept as (_ & Hres & _).
Qed.

(** C7: the mapping [get_all_commands] returns has no reserved name as a
    key; every key is the name of an activated star of the registry that is
    not the plugin's own instance and that owns at least one command; and a
    star that is deactivated, is the plugin's own instance, or carries a
    reserved name contributes nothing: the mapping is the one obtained
    without it. *)
Theorem registry_scan_exclusions (self : MyPlugin) :
  (forall n, n ∈ reserved_names -> n ∉ od_keys (get_all_commands self))
  /\ (forall k, k ∈ od_keys (get_all_commands self) ->
        exists stars star,
          get_all_stars (context self) = Some stars /\ star ∈ stars
          /\ activated star = true
          /\ getattr_name star = Some k
          /\ is_self self (star_cls star) = false
          /\ star_commands self (module_path star) ≠ [])
  /\ (forall pre star post,
        get_all_stars (context self) = Some (pre ++ star :: post) ->
        activated star = false
        \/ is_self self (star_cls star) = true
        \/ (exists n, getattr_name star = Some n /\ n ∈ reserved_names) ->
        get_all_commands self = get_all_commands (with_stars self (pre ++ post))).
Proof.
  split_and!.
  - apply get_all_commands_not_reserved.
  - intros k Hk.
    destruct (get_all_commands_key_origin self k Hk)
      as (star & Hin & Hkept & <- & Hcmds).
    apply active_stars_elem in Hin as (stars & Hstars & Hin & Hact).
    apply kept_all_true in Hkept as (Hname & _ & Hself).
    by exists stars, star.
  - intros pre star post Hstars Hout.
    rewrite !get_all_commands_fold.
    change (kept_all (with_stars self (pre ++ post))) with (kept_all self).
    change (star_step (with_stars self (pre ++ post))) with (star_step self).
    change (active_stars (with_stars self (pre ++ post)))
      with (List.filter activated (pre ++ post)).
    apply (active_stars_remove self pre star post); [done|].
    destruct Hout as [Hact | [Hself | (n & Hname & Hres)]]; [by left | right..].
    + unfold kept_all. rewrite Hself. simpl. by rewrite !andb_false_r.
    + unfold kept_all, star_key. rewrite Hname. simpl.
      by rewrite bool_decide_eq_true_2.
Qed.

Lemma registry_scan_exclusions_witness :
  get_all_commands
    (Samples.plugin (Some [Samples.star "Weather" "weather.mod" 1 true;
                           Samples.star "Off" "weather.mod" 2 false])
                    [] [] Samples.weather_registry)
  = get_all_commands
      (with_stars (Samples.plugin (Some [Samples.star "Weather" "weather.mod" 1 true;
                                         Samples.star "Off" "weather.mod" 2 false])
                                  [] [] Samples.weather_registry)
                  [Samples.star "Weather" "weather.mod" 1 true]).
Proof.
  destruct (registry_scan_exclusions
              (Samples.plugin (Some [Samples.star "Weather" "weather.mod" 1 true;
                                     Samples.star "Off" "weather.mod" 2 false])
                              [] [] Samples.weather_registry)) as (_ & _ & Hout).
  apply (Hout [Samples.star "Weather" "weather.mod" 1 true]
              (Samples.star "Off" "weather.mod" 2 false) []).
  - reflexivity.
  - left. reflexivity.
Defined.

Lemma star_loop_first_occurrences self keep stars k cmds :
  od_get k (fold_left (star_step self keep) stars []) = Some cmds ->
  NoDup cmds
  /\ cmds = first_occurrences (contributions self keep k stars)
  /\ cmds `sublist_of` contributions self keep k stars
  /\ forall fc, fc ∈ cmds <-> fc ∈ contributions self keep k stars.
Proof.
  intros [-> _]%star_loop_lookup. unfold first_occurrences. split_and!.
  - apply unseen_NoDup.
  - done.
  - apply unseen_sublist.
  - intros fc. rewrite unseen_elem. split; [by intros [? _] | intros ?; split; [done|]].
    apply not_elem_of_nil.
Qed.

(** C9: each command list of a scan result has no repeated string and is
    the sequence of first occurrences of the formatted commands met for that
    extension, in scan order: when two retained handlers format to the same
    string only the first stays.  This holds for [get_all_commands] and for
    [get_plugin_whitelist_commands]. *)
Theorem command_lists_deduplicated (self : MyPlugin) (k : str) (cmds : list str) :
  (od_get k (get_all_commands self) = Some cmds ->
     NoDup cmds
     /\ cmds = first_occurrences (all_contributions self k)
     /\ cmds `sublist_of` all_contributions self k
     /\ forall fc, fc ∈ cmds <-> fc ∈ all_contributions self k)
  /\ (od_get k (get_plugin_whitelist_commands self) = Some cmds ->
        NoDup cmds
        /\ cmds = first_occurrences (whitelist_contributions self k)
        /\ cmds `sublist_of` whitelist_contributions self k
        /\ forall fc, fc ∈ cmds <-> fc ∈ whitelist_contributions self k).
Proof.
  split.
  - rewrite get_all_commands_fold. apply star_loop_first_occurrences.
  - rewrite get_plugin_whitelist_commands_fold. apply star_loop_first_occurrences.
Qed.

Lemma command_lists_deduplicated_witness :
  all_contributions
    (Samples.plugin Samples.weather_host [] []
       [Samples.command "weather.mod" "forecast" "show forecast"; NotAHandler;
        Samples.command "weather.mod" "rain" "chance of rain";
        Samples.command "weather.mod" "forecast" "show forecast"])
    (lit "Weather")
  = [lit "forecast#show forecast"; lit "rain#chance of rain";
     lit "forecast#show forecast"]
  /\ NoDup [lit "forecast#show forecast"; lit "rain#chance of rain"]
  /\ [lit "forecast#show forecast"; lit "rain#chance of rain"]
     = first_occurrences
         (all_contributions
            (Samples.plugin Samples.weather_host [] []
               [Samples.command "weather.mod" "forecast" "show forecast"; NotAHandler;
                Samples.command "weather.mod" "rain" "chance of rain";
                Samples.command "weather.mod" "forecast" "show forecast"])
            (lit "Weather")).
Proof.
  split; [reflexivity|].
  destruct (command_lists_deduplicated
              (Samples.plugin Samples.weather_host [] []
                 [Samples.command "weather.mod" "forecast" "show forecast"; NotAHandler;
                  Samples.command "weather.mod" "rain" "chance of rain";
                  Samples.command "weather.mod" "forecast" "show forecast"])
              (lit "Weather")
              [lit "forecast#show forecast"; lit "rain#chance of rain"])
    as [Hall _].
  destruct (Hall eq_refl) as (Hnodup & Hfirst & _).
  split; [exact Hnodup | exact Hfirst].
Defined.

(** C10: [get_plugin_whitelist_commands] has no reserved-name filter: an
    activated star whose name is a key of the extension-keyed whitelist,
    with valid metadata and other than the plugin's own instance, appears in
    the result with the commands of its handlers, whatever its name (also a
    reserved one, which [get_all_commands] leaves out); the plugin's own
    instance contributes nothing. *)
Theorem whitelist_scan_keeps_reserved (self : MyPlugin)
    (stars : list StarMetadata) (star : StarMetadata) (n c : str)
    (h : StarHandlerMetadata)
    (Hstars : get_all_stars (context self) = Some stars)
    (Hin : star ∈ stars)
    (Hact : activated star = true)
    (Hname : getattr_name star = Some n) (Hn : n ≠ [])
    (Hlisted : od_mem n (whitelist_index (config_plugin_whitelist self)) = true)
    (Hmp : module_path star = Some (handler_module_path h))
    (Hmpne : handler_module_path h ≠ [])
    (Hinst : isinstance_Star (star_cls star) = true)
    (Hself : is_self self (star_cls star) = false)
    (Hh : Handler h ∈ star_handlers_registry self)
    (Hc : first_command (event_filters h) = Some c) (Hcne : c ≠ []) :
  (exists cmds, od_get n (get_plugin_whitelist_commands self) = Some cmds
                /\ format_command c (desc h) ∈ cmds)
  /\ (n ∈ reserved_names -> n ∉ od_keys (get_all_commands self))
  /\ (forall pre own post,
        stars = pre ++ own :: post -> is_self self (star_cls own) = true ->
        get_plugin_whitelist_commands self
        = get_plugin_whitelist_commands (with_stars self (pre ++ post))).
Proof.
  split_and!.
  - set (wc := whitelist_index (config_plugin_whitelist self)) in *.
    assert (Hkept : kept_whitelist self wc star = true).
    { unfold kept_whitelist, star_key. rewrite Hname, Hmp, Hinst, Hself. simpl.
      rewrite Hlisted. by destruct n, (handler_module_path h). }
    assert (Hfc : format_command c (desc h) ∈ star_commands self (module_path star)).
    { unfold star_commands. apply list_elem_of_omap. exists (Handler h).
      split; [done|]. unfold handler_command. rewrite Hmp.
      rewrite bool_decide_eq_false_2 by (intros Hne; by apply Hne).
      rewrite Hc. simpl. by destruct c. }
    assert (Hcontrib : format_command c (desc h)
                         ∈ contributions self (kept_whitelist self wc) n (active_stars self)).
    { eapply contributions_elem; [by eapply elem_active_stars | done | | done].
      unfold star_key. by rewrite Hname. }
    pose proof (star_loop_listed self (kept_whitelist self wc) n (active_stars self) [])
      as Hl.
    rewrite <- get_plugin_whitelist_commands_fold, fold_add_new in Hl.
    unfold listed in Hl. simpl in Hl.
    destruct (od_get n (get_plugin_whitelist_commands self)) as [cmds|]; simpl in Hl.
    + exists cmds. split; [done|]. rewrite Hl. apply unseen_elem.
      split; [done | apply not_elem_of_nil].
    + exfalso. eapply not_elem_of_nil. rewrite Hl. apply unseen_elem.
      split; [exact Hcontrib | apply not_elem_of_nil].
  - apply get_all_commands_not_reserved.
  - intros pre own post -> Hown.
    rewrite !get_plugin_whitelist_commands_fold.
    change (config_plugin_whitelist (with_stars self (pre ++ post)))
      with (config_plugin_whitelist self).
    change (kept_whitelist (with_stars self (pre ++ post))) with (kept_whitelist self).
    change (star_step (with_stars self (pre ++ post))) with (star_step self).
    change (active_stars (with_stars self (pre ++ post)))
      with (List.filter activated (pre ++ post)).
    apply (active_stars_remove self pre own post); [done|]. right.
    unfold kept_whitelist. rewrite Hown. simpl. by rewrite !andb_false_r.
Qed.

Lemma whitelist_scan_keeps_reserved_witness :
  get_plugin_whitelist_commands Samples.core_plugin
  = [(lit "astrbot", [lit "plugin#manage plugins"])]
  /\ (exists cmds,
        od_get (lit "astrbot") (get_plugin_whitelist_commands Samples.core_plugin)
        = Some cmds
        /\ lit "plugin#manage plugins" ∈ cmds)
  /\ (lit "astrbot" ∉ od_keys (get_all_commands Samples.core_plugin)).
Proof.
  split; [reflexivity|].
  destruct (whitelist_scan_keeps_reserved Samples.core_plugin
              [Samples.star "astrbot" "core.mod" 1 true;
               Samples.star "astrbot_plugin_help" "help.mod" 0 true]
              (Samples.star "astrbot" "core.mod" 1 true)
              (lit "astrbot") (lit "plugin")
              {| handler_module_path := lit "core.mod";
                 desc := Some (lit "manage plugins");
                 event_filters := [OtherFilter; CommandFilter (lit "plugin")] |})
    as (Hlisted & Hall & _).
  - reflexivity.
  - apply list_elem_of_here.
  - reflexivity.
  - reflexivity.
  - discriminate.
  - reflexivity.
  - reflexivity.
  - discriminate.
  - reflexivity.
  - reflexivity.
  - apply list_elem_of_here.
  - reflexivity.
  - discriminate.
  - split; [exact Hlisted|]. apply Hall. apply list_elem_of_here.
Defined.

(** * Further properties of the parser, the synthesizer and the scans *)

(** ** Whitelist parser: last entry wins, keys are trimmed *)

(** X1: the parser keeps, for each trigger, the extension of the last
    configuration entry with that trigger, and the extension-keyed view
    keeps, for each extension, the trigger of its last entry; a key that no
    entry assigns is absent. *)
Theorem parser_last_entry_wins (self : MyPlugin) (k : str) :
  od_get k (_parse_whitelist_config self)
  = last (assigned by_trigger k (config_plugin_whitelist self))
  /\ od_get k (whitelist_index (config_plugin_whitelist self))
     = last (assigned entry_of k (config_plugin_whitelist self)).
Proof.
  unfold _parse_whitelist_config, whitelist_index.
  rewrite parse_fold, index_fold, !fold_put_get. simpl.
  split; by destruct (last _).
Qed.

Lemma lstrip_head s c rest : lstrip s = c :: rest -> isspace c = false.
Proof.
  induction s as [|x s IH]; simpl; [done|].
  destruct (isspace x) eqn:Hx; [done|]. by intros [= <- _].
Qed.

Lemma lstrip_suffix s : exists front, s = front ++ lstrip s.
Proof.
  induction s as [|x s [front IH]]; simpl; [by exists []|].
  destruct (isspace x); [|by exists []].
  exists (x :: front). simpl. by rewrite <- IH.
Qed.

Lemma lstrip_fixed s :
  (forall c rest, s = c :: rest -> isspace c = false) -> lstrip s = s.
Proof.
  destruct s as [|x s]; simpl; [done|]. intros Hhead.
  by rewrite (Hhead x s eq_refl).
Qed.

Lemma rstrip_prefix s : exists back, s = rstrip s ++ back.
Proof.
  unfold rstrip. destruct (lstrip_suffix (rev s)) as [front Hfront].
  exists (rev front). rewrite <- rev_app_distr, <- Hfront. by rewrite rev_involutive.
Qed.

Lemma rstrip_last s c front : rstrip s = front ++ [c] -> isspace c = false.
Proof.
  unfold rstrip. intros Hr. apply (lstrip_head (rev s) c (rev front)).
  apply (f_equal (@rev N)) in Hr. rewrite rev_involutive in Hr.
  by rewrite Hr, rev_app_distr.
Qed.

Lemma strip_trimmed s : trimmed (strip s).
Proof.
  unfold strip. split.
  - intros c rest Hs. destruct (rstrip_prefix (lstrip s)) as [back Hback].
    rewrite Hs in Hback. simpl in Hback. by eapply lstrip_head.
  - intros c front. apply rstrip_last.
Qed.

Lemma trimmed_strip s : trimmed s -> strip s = s.
Proof.
  intros [Hhead Hlast]. unfold strip. rewrite (lstrip_fixed s Hhead).
  unfold rstrip. rewrite lstrip_fixed; [apply rev_involutive|].
  intros c rest Hrev. apply (Hlast c (rev rest)).
  apply (f_equal (@rev N)) in Hrev. rewrite rev_involutive in Hrev.
  by rewrite Hrev.
Qed.

Lemma entry_of_trimmed it p t : entry_of it = Some (p, t) -> trimmed p /\ trimmed t.
Proof.
  unfold entry_of. destruct it as [| |?|s]; try done.
  destruct (contains dash s); [|done].
  intros [= <- <-]. split; apply strip_trimmed.
Qed.

(** X2: every trigger command and extension name stored in the parsed
    whitelist, in either view, neither starts nor ends with a whitespace
    character; stripping it again changes nothing. *)
Theorem parsed_names_trimmed (self : MyPlugin) (trigger_command plugin_name : str)
    (Hin : (trigger_command, plugin_name) ∈ od_items (_parse_whitelist_config self)
           \/ (plugin_name, trigger_command)
                ∈ od_items (whitelist_index (config_plugin_whitelist self))) :
  trimmed trigger_command /\ trimmed plugin_name
  /\ strip trigger_command = trigger_command /\ strip plugin_name = plugin_name.
Proof.
  assert (Htrim : trimmed plugin_name /\ trimmed trigger_command).
  { destruct Hin as [Hin|Hin].
    - apply parsed_pair_entry in Hin as (it & _ & Hentry). by eapply entry_of_trimmed.
    - apply indexed_pair_entry in Hin as (it & _ & Hentry). by eapply entry_of_trimmed. }
  destruct Htrim as [Hp Ht]. split_and!; try done; by apply trimmed_strip.
Qed.

Lemma parsed_names_trimmed_witness :
  trimmed (lit "天气 帮助") /\ trimmed (lit "Weather").
Proof.
  destruct (parsed_names_trimmed
              (Samples.plugin None [] ["  Weather - 天气 帮助　"]%string [])
              (lit "天气 帮助") (lit "Weather")) as (Ht & Hp & _).
  - left. vm_compute. apply list_elem_of_here.
  - split; [exact Ht | exact Hp].
Defined.

(** X3: a trigger is a key of the parsed whitelist exactly when some
    configuration entry has it, an extension name is a key of the
    extension-keyed view exactly when some entry names it; so every
    extension a trigger is bound to passes the whitelist test of the
    restricted scan. *)
Theorem parsed_keys_complete (self : MyPlugin) :
  (forall t, t ∈ od_keys (_parse_whitelist_config self)
             <-> exists it p, it ∈ config_plugin_whitelist self
                              /\ entry_of it = Some (p, t))
  /\ (forall p, p ∈ od_keys (whitelist_index (config_plugin_whitelist self))
                <-> exists it t, it ∈ config_plugin_whitelist self
                                 /\ entry_of it = Some (p, t))
  /\ (forall t p, od_get t (_parse_whitelist_config self) = Some p ->
        od_mem p (whitelist_index (config_plugin_whitelist self)) = true).
Proof.
  split_and!.
  - apply parse_keys_iff.
  - apply index_keys_iff.
  - apply bound_extension_listed.
Qed.

Lemma parsed_keys_complete_witness :
  od_mem (lit "C")
         (whitelist_index
            (config_plugin_whitelist
               (Samples.plugin None [] ["A-B"; "C-B"]%string []))) = true.
Proof.
  destruct (parsed_keys_complete (Samples.plugin None [] ["A-B"; "C-B"]%string []))
    as (_ & _ & Hbound).
  apply (Hbound (lit "B") (lit "C")). reflexivity.
Defined.

(** ** Handler synthesis: the decorator calls and the attribute names *)

Lemma fold_put_none {I K V : Type} `{EqDecision K} (kv : I -> option (K * V))
    (l : list I) (d : odict K V) :
  (forall it, it ∈ l -> kv it = None) -> fold_left (put kv) l d = d.
Proof.
  revert d. induction l as [|it l IH]; intros d Hnone; simpl; [done|].
  unfold put at 2. rewrite Hnone by apply list_elem_of_here.
  apply IH. intros it' Hin. by apply Hnone, list_elem_of_further.
Qed.

Lemma entry_of_no_dash (l : list pyval) :
  (forall s, PyStr s ∈ l -> dash ∉ s) -> forall it, it ∈ l -> entry_of it = None.
Proof.
  intros Hnone it Hin. unfold entry_of. destruct it as [| |?|s]; try done.
  unfold contains. by rewrite bool_decide_eq_false_2 by by apply Hnone.
Qed.

(** X4: when [plugin_whitelist] is a list none of whose items is a string
    containing ['-'] (the empty list included), the parsed whitelist is
    empty, the decorator is never called, no attribute is set, and the
    restricted scan returns the empty mapping whatever the registry holds. *)
Theorem no_entries_no_handlers (self : MyPlugin)
    (Hlist : exists c l, config self = Some c /\ plugin_whitelist c = Some l)
    (Hnone : forall s, PyStr s ∈ config_plugin_whitelist self -> dash ∉ s) :
  _parse_whitelist_config self = []
  /\ commands (init self).2 = []
  /\ attributes (init self).2 = ∅
  /\ get_plugin_whitelist_commands self = [].
Proof.
  pose proof (entry_of_no_dash _ Hnone) as Hentry.
  assert (Hparse : _parse_whitelist_config self = []).
  { unfold _parse_whitelist_config. rewrite parse_fold. apply fold_put_none.
    intros it Hin. unfold by_trigger. by rewrite Hentry. }
  assert (Hindex : whitelist_index (config_plugin_whitelist self) = []).
  { unfold whitelist_index. rewrite index_fold. by apply fold_put_none. }
  split_and!; [done | | |].
  - unfold init. simpl. by rewrite Hparse.
  - unfold init. simpl. by rewrite Hparse.
  - rewrite get_plugin_whitelist_commands_fold, Hindex. by apply star_loop_none.
Qed.

Lemma no_entries_no_handlers_witness :
  get_plugin_whitelist_commands
    (Samples.plugin Samples.weather_host [] ["Weather"; "天气帮助"]%string
                    Samples.weather_registry) = [].
Proof.
  apply (no_entries_no_handlers
           (Samples.plugin Samples.weather_host [] ["Weather"; "天气帮助"]%string
                           Samples.weather_registry)).
  { eexists _, _. split; reflexivity. }
  intros s Hs. vm_compute in Hs.
  repeat (apply elem_of_cons in Hs as [Hs|Hs];
          [injection Hs as ->; vm_compute; intros Hin;
           repeat (apply elem_of_cons in Hin as [Hin|Hin]; [done|]);
           by apply elem_of_nil in Hin |]).
  by apply elem_of_nil in Hs.
Defined.

Lemma od_mem_keys {K V : Type} `{EqDecision K} (k : K) (d : odict K V) :
  od_mem k d = bool_decide (k ∈ od_keys d).
Proof.
  unfold od_mem. destruct (od_get k d) as [v|] eqn:E.
  - symmetry. apply bool_decide_eq_true_2, od_keys_get. eauto.
  - symmetry. apply bool_decide_eq_false_2. by apply od_get_None.
Qed.

Lemma parse_keys_order l d :
  od_keys (fold_left (put by_trigger) l d)
  = fold_left add_new (triggers_of l) (od_keys d).
Proof.
  revert d. induction l as [|it l IH]; intros d; simpl; [done|].
  rewrite IH. unfold put, by_trigger, triggers_of. simpl.
  destruct (entry_of it) as [[p t]|]; simpl; [|done].
  rewrite od_keys_set, od_mem_keys. unfold add_new. by case_bool_decide.
Qed.

(** X5: the synthesizer calls the decorator [filter.command] once per
    distinct trigger, in the order in which the triggers first appear in
    the configuration: the triggers of the calls are the keys of the parsed
    whitelist, without repetition, and each call passes the closure made
    for the extension the whitelist binds that trigger to. *)
Theorem decorator_calls_per_trigger (self : MyPlugin) :
  (commands (init self).2).*1 = od_keys (_parse_whitelist_config self)
  /\ od_keys (_parse_whitelist_config self)
     = first_occurrences (triggers_of (config_plugin_whitelist self))
  /\ NoDup (commands (init self).2).*1
  /\ commands (init self).2
     = map (fun item => (item.1, make_handler item.2))
           (od_items (_parse_whitelist_config self)).
Proof.
  assert (Hcmds : commands (init self).2
     = map (fun item => (item.1, make_handler item.2))
           (od_items (_parse_whitelist_config self))).
  { unfold init. simpl. unfold _create_whitelist_handlers. by rewrite create_commands. }
  assert (Hfst : (commands (init self).2).*1 = od_keys (_parse_whitelist_config self)).
  { rewrite Hcmds. unfold od_keys, od_items. clear Hcmds.
    induction (_parse_whitelist_config self) as [|[t p] l IH]; [done|].
    cbn. f_equal. exact IH. }
  split_and!; [done | | | done].
  - unfold _parse_whitelist_config. rewrite parse_fold, parse_keys_order.
    by rewrite fold_add_new.
  - rewrite Hfst. apply parse_NoDup.
Qed.

Lemma create_attributes_origin n h l st :
  attributes (fold_left create_handler l st) !! n = Some h ->
  attributes st !! n = Some h
  \/ exists c p, (c, p) ∈ l /\ n = handler_name c /\ h = make_handler p.
Proof.
  revert st. induction l as [|[c p] l IH]; intros st; simpl; [by left|].
  intros Hget. apply IH in Hget as [Hget | (c' & p' & Hin & ? & ?)].
  - simpl in Hget. apply lookup_insert_Some in Hget as [[<- <-] | [_ Hget]].
    + right. exists c, p. split; [apply list_elem_of_here | done].
    + by left.
  - right. exists c', p'. split; [by apply list_elem_of_further | done].
Qed.

Lemma create_attributes_dom c p l st :
  (c, p) ∈ l -> is_Some (attributes (fold_left create_handler l st) !! handler_name c).
Proof.
  revert st. induction l as [|[c' p'] l IH] using rev_ind; intros st Hin.
  - by apply elem_of_nil in Hin.
  - rewrite fold_left_app. simpl. apply elem_of_app in Hin as [Hin|Hin].
    + destruct (decide (handler_name c' = handler_name c)) as [->|Hne].
      * rewrite lookup_insert_eq. eauto.
      * rewrite lookup_insert_ne by done. by apply IH.
    + apply list_elem_of_singleton in Hin as [= <- <-].
      rewrite lookup_insert_eq. eauto.
Qed.

Lemma replace_spaceless (c : str) : space ∉ replace space underscore c.
Proof.
  induction c as [|x c IH]; simpl; [apply not_elem_of_nil|].
  apply not_elem_of_cons. split; [|done].
  destruct (N.eqb_spec x space); [done | congruence].
Qed.

(** X6: the attributes the synthesizer sets on the instance are exactly the
    handler names of the whitelist triggers; each holds a handler made for
    the extension of some trigger with that name; and every such name is
    ["whitelist_"] followed by a text of the trigger's length that contains
    no space. *)
Theorem instance_attributes (self : MyPlugin) (n : str) :
  (is_Some (attributes (init self).2 !! n)
   <-> exists t, t ∈ od_keys (_parse_whitelist_config self) /\ n = handler_name t)
  /\ (forall h, attributes (init self).2 !! n = Some h ->
        exists t p, od_get t (_parse_whitelist_config self) = Some p
                    /\ n = handler_name t /\ h = make_handler p)
  /\ (forall t, n = handler_name t ->
        (space ∉ n) /\ lit "whitelist_" `prefix_of` n
        /\ length n = (10 + length t)%nat).
Proof.
  assert (Horigin : forall h, attributes (init self).2 !! n = Some h ->
            exists t p, od_get t (_parse_whitelist_config self) = Some p
                        /\ n = handler_name t /\ h = make_handler p).
  { intros h Hget. unfold init in Hget. simpl in Hget.
    apply create_attributes_origin in Hget as [Hget | (c & p & Hin & -> & ->)]; [done|].
    exists c, p. split; [|done]. apply od_elem_get; [apply parse_NoDup | done]. }
  split_and!; [split | done |].
  - intros [h Hget]. destruct (Horigin h Hget) as (t & p & Hp & -> & _).
    exists t. split; [|done]. apply od_keys_get. eauto.
  - intros (t & Ht & ->). apply od_keys_get in Ht as [p Hp].
    unfold init. simpl. apply (create_attributes_dom t p).
    by apply od_get_Some_elem.
  - intros t ->. unfold handler_name. split_and!.
    + intros [Hin|Hin]%elem_of_app; [|by apply replace_spaceless in Hin].
      vm_compute in Hin. repeat (apply elem_of_cons in Hin as [Hin|Hin]; [done|]).
      by apply elem_of_nil in Hin.
    + by eexists.
    + rewrite length_app. unfold replace. by rewrite length_map.
Qed.

Lemma instance_attributes_witness :
  exists t p,
    od_get t (_parse_whitelist_config
                (Samples.plugin None [] ["X-a b"; "Y-a_b"]%string [])) = Some p
    /\ lit "whitelist_a_b" = handler_name t
    /\ make_handler (lit "Y") = make_handler p.
Proof.
  destruct (instance_attributes
              (Samples.plugin None [] ["X-a b"; "Y-a_b"]%string [])
              (lit "whitelist_a_b")) as (_ & Horigin & _).
  apply (Horigin (make_handler (lit "Y"))).
  unfold init, _create_whitelist_handlers.
  replace (od_items (_parse_whitelist_config _))
    with ([(lit "a b", lit "X")] ++ (lit "a_b", lit "Y") :: []) by reflexivity.
  replace (lit "whitelist_a_b") with (handler_name (lit "a_b")) by reflexivity.
  apply create_attributes_last. constructor.
Defined.

(** ** Registry scans: which extensions appear, in which order, with what *)

Lemma kept_all_iff self star :
  kept_all self star = true
  <-> exists k, getattr_name star = Some k /\ k ≠ [] /\ (k ∉ reserved_names)
                /\ truthy (module_path star) = true
                /\ isinstance_Star (star_cls star) = true
                /\ is_self self (star_cls star) = false.
Proof.
  unfold kept_all, star_key. split.
  - intros Hkept. repeat (apply andb_prop in Hkept as [Hkept ?]).
    destruct (getattr_name star) as [k|]; [|done]. exists k. split_and!; try done.
    + by destruct k.
    + by apply negb_true_iff, bool_decide_eq_false in Hkept.
    + by apply negb_true_iff.
  - intros (k & -> & Hk & Hres & -> & -> & ->). simpl.
    rewrite bool_decide_eq_false_2 by done. by destruct k.
Qed.

Lemma kept_whitelist_iff self wc star :
  kept_whitelist self wc star = true
  <-> exists k, getattr_name star = Some k /\ k ≠ [] /\ od_mem k wc = true
                /\ truthy (module_path star) = true
                /\ isinstance_Star (star_cls star) = true
                /\ is_self self (star_cls star) = false.
Proof.
  unfold kept_whitelist, star_key. split.
  - intros Hkept. repeat (apply andb_prop in Hkept as [Hkept ?]).
    destruct (getattr_name star) as [k|]; [|done]. exists k. split_and!; try done.
    + by destruct k.
    + by apply negb_true_iff.
  - intros (k & Hname & Hk & Hmem & Hmp & Hinst & Hself).
    rewrite Hname. simpl. rewrite Hmem, Hmp, Hinst, Hself. by destruct k.
Qed.

Lemma star_loop_key_iff self keep stars k :
  k ∈ od_keys (fold_left (star_step self keep) stars [])
  <-> exists star, star ∈ stars /\ keep star = true /\ star_key star = k
                   /\ star_commands self (module_path star) ≠ [].
Proof.
  rewrite star_loop_keys. split.
  - intros [?%elem_of_nil|Hne]; [done|].
    destruct (contributions self keep k stars) as [|fc l] eqn:E; [done|].
    destruct (contributions_origin self keep k stars fc)
      as (star & Hin & Hkept & Hkey & Hfc).
    { rewrite E. apply list_elem_of_here. }
    exists star. split_and!; try done. intros Hnil. rewrite Hnil in Hfc.
    by apply elem_of_nil in Hfc.
  - intros (star & Hin & Hkept & Hkey & Hne). right.
    destruct (star_commands self (module_path star)) as [|fc l] eqn:E; [done|].
    intros Hnil.
    assert (Hfc : fc ∈ contributions self keep k stars).
    { eapply contributions_elem; try done. rewrite E. apply list_elem_of_here. }
    rewrite Hnil in Hfc. by apply elem_of_nil in Hfc.
Qed.

Lemma active_stars_iff self star :
  star ∈ active_stars self
  <-> exists stars, get_all_stars (context self) = Some stars
                    /\ star ∈ stars /\ activated star = true.
Proof.
  split; [apply active_stars_elem|].
  intros (stars & Hstars & Hin & Hact). by eapply elem_active_stars.
Qed.

(** X7: an extension name is a key of the mapping [get_all_commands]
    returns exactly when the registry lists an activated star of that name
    (non-empty, not reserved) with a module path, a [Star] instance other
    than the plugin itself, and at least one handler of its module that
    carries a command; for [get_plugin_whitelist_commands] the same holds
    with "named in the plugin whitelist" in place of "not reserved". *)
Theorem scan_key_characterisation (self : MyPlugin) (k : str) :
  (k ∈ od_keys (get_all_commands self)
   <-> exists stars star,
         get_all_stars (context self) = Some stars /\ star ∈ stars
         /\ activated star = true
         /\ getattr_name star = Some k /\ k ≠ [] /\ (k ∉ reserved_names)
         /\ truthy (module_path star) = true
         /\ isinstance_Star (star_cls star) = true
         /\ is_self self (star_cls star) = false
         /\ star_commands self (module_path star) ≠ [])
  /\ (k ∈ od_keys (get_plugin_whitelist_commands self)
      <-> exists stars star,
            get_all_stars (context self) = Some stars /\ star ∈ stars
            /\ activated star = true
            /\ getattr_name star = Some k /\ k ≠ []
            /\ od_mem k (whitelist_index (config_plugin_whitelist self)) = true
            /\ truthy (module_path star) = true
            /\ isinstance_Star (star_cls star) = true
            /\ is_self self (star_cls star) = false
            /\ star_commands self (module_path star) ≠ []).
Proof.
  split.
  - rewrite get_all_commands_fold, star_loop_key_iff. split.
    + intros (star & Hin & Hkept & <- & Hcmds).
      apply active_stars_iff in Hin as (stars & Hstars & Hin & Hact).
      apply kept_all_iff in Hkept as (k & Hname & ? & ? & ? & ? & ?).
      exists stars, star. unfold star_key. rewrite Hname. by split_and!.
    + intros (stars & star & Hstars & Hin & Hact & Hname & ? & ? & ? & ? & ? & ?).
      exists star. split_and!.
      * apply active_stars_iff. by exists stars.
      * apply kept_all_iff. by exists k.
      * unfold star_key. by rewrite Hname.
      * done.
  - rewrite get_plugin_whitelist_commands_fold, star_loop_key_iff. split.
    + intros (star & Hin & Hkept & <- & Hcmds).
      apply active_stars_iff in Hin as (stars & Hstars & Hin & Hact).
      apply kept_whitelist_iff in Hkept as (k & Hname & ? & ? & ? & ? & ?).
      exists stars, star. unfold star_key. rewrite Hname. by split_and!.
    + intros (stars & star & Hstars & Hin & Hact & Hname & ? & ? & ? & ? & ? & ?).
      exists star. split_and!.
      * apply active_stars_iff. by exists stars.
      * apply kept_whitelist_iff. by exists k.
      * unfold star_key. by rewrite Hname.
      * done.
Qed.

Lemma add_new_idem (l : list str) (x : str) : add_new (add_new l x) x = add_new l x.
Proof.
  unfold add_new. destruct (decide (x ∈ l)) as [Hin|Hin].
  - by rewrite !(bool_decide_eq_true_2 (x ∈ l)).
  - rewrite (bool_decide_eq_false_2 (x ∈ l)) by done.
    rewrite bool_decide_eq_true_2; [done|].
    apply elem_of_app. right. apply list_elem_of_here.
Qed.

Lemma scan_handler_keys_eq n mp d item :
  od_keys (scan_handler n mp d item)
  = match handler_command mp item with
    | Some _ => add_new (od_keys d) n
    | None => od_keys d
    end.
Proof.
  unfold scan_handler, handler_command. destruct item as [h|]; [|done].
  destruct (bool_decide (Some (handler_module_path h) ≠ mp)); [done|].
  destruct (truthy (first_command (event_filters h))); [|done].
  unfold add_new. case_bool_decide as Hin.
  - rewrite bool_decide_eq_true_2; [done|]. apply od_keys_get.
    destruct (od_get n d); [eauto | by apply elem_of_nil in Hin].
  - rewrite od_keys_set, od_mem_keys. by case_bool_decide.
Qed.

Lemma scan_handlers_keys_eq self n mp d :
  od_keys (scan_handlers self n mp d)
  = if bool_decide (star_commands self mp = []) then od_keys d
    else add_new (od_keys d) n.
Proof.
  unfold scan_handlers, star_commands.
  revert d. induction (star_handlers_registry self) as [|item l IH]; intros d; simpl.
  - done.
  - rewrite IH, scan_handler_keys_eq.
    destruct (handler_command mp item) as [fc|]; simpl; [|done].
    case_bool_decide; [done | apply add_new_idem].
Qed.

Lemma star_loop_key_order self keep stars d :
  od_keys (fold_left (star_step self keep) stars d)
  = fold_left add_new (productive_names self keep stars) (od_keys d).
Proof.
  unfold productive_names.
  revert d. induction stars as [|star rest IH]; intros d; simpl; [done|].
  rewrite IH. unfold star_step. destruct (keep star); simpl; [|done].
  rewrite scan_handlers_keys_eq. by case_bool_decide.
Qed.

(** X8: the keys of both scan results are in registry order: they are the
    names of the kept stars that own a command, each at the place of its
    first such star, and no name occurs twice. *)
Theorem scan_key_order (self : MyPlugin) :
  od_keys (get_all_commands self)
  = first_occurrences (productive_names self (kept_all self) (active_stars self))
  /\ od_keys (get_plugin_whitelist_commands self)
     = first_occurrences
         (productive_names self
            (kept_whitelist self (whitelist_index (config_plugin_whitelist self)))
            (active_stars self))
  /\ NoDup (od_keys (get_all_commands self))
  /\ NoDup (od_keys (get_plugin_whitelist_commands self)).
Proof.
  assert (Hall : od_keys (get_all_commands self)
            = first_occurrences (productive_names self (kept_all self) (active_stars self))).
  { by rewrite get_all_commands_fold, star_loop_key_order, fold_add_new. }
  assert (Hwl : od_keys (get_plugin_whitelist_commands self)
     = first_occurrences
         (productive_names self
            (kept_whitelist self (whitelist_index (config_plugin_whitelist self)))
            (active_stars self))).
  { by rewrite get_plugin_whitelist_commands_fold, star_loop_key_order, fold_add_new. }
  split_and!; [done | done | |].
  - rewrite Hall. apply unseen_NoDup.
  - rewrite Hwl. apply unseen_NoDup.
Qed.

Lemma scan_key_characterisation_witness :
  lit "Weather"
    ∈ od_keys (get_all_commands
                 (Samples.plugin Samples.weather_host [] [] Samples.weather_registry)).
Proof.
  destruct (scan_key_characterisation
              (Samples.plugin Samples.weather_host [] [] Samples.weather_registry)
              (lit "Weather")) as [[_ Hkey] _].
  apply Hkey.
  exists [Samples.star "Weather" "weather.mod" 1 true],
         (Samples.star "Weather" "weather.mod" 1 true).
  split_and!; try reflexivity; try discriminate.
  - apply list_elem_of_here.
  - vm_compute. intros Hin.
    repeat (apply elem_of_cons in Hin as [Hin|Hin]; [discriminate|]).
    by apply elem_of_nil in Hin.
Defined.

Lemma star_commands_origin self mp fc :
  fc ∈ star_commands self mp
  <-> exists h c, Handler h ∈ star_handlers_registry self
                  /\ Some (handler_module_path h) = mp
                  /\ first_command (event_filters h) = Some c /\ c ≠ []
                  /\ fc = format_command c (desc h).
Proof.
  unfold star_commands. rewrite list_elem_of_omap. split.
  - intros (item & Hin & Hcmd). unfold handler_command in Hcmd.
    destruct item as [h|]; [|done].
    case_bool_decide as Hmp; [done|].
    destruct (first_command (event_filters h)) as [c|] eqn:Hc; [|done].
    simpl in Hcmd. destruct c as [|x c]; [done|]. injection Hcmd as <-.
    exists h, (x :: c). split_and!; try done.
  - intros (h & c & Hin & Hmp & Hc & Hne & ->). exists (Handler h). split; [done|].
    unfold handler_command. rewrite bool_decide_eq_false_2 by (intros Hn; by apply Hn).
    rewrite Hc. simpl. by destruct c.
Qed.

Lemma format_command_prefix c description :
  c `prefix_of` format_command c description.
Proof.
  unfold format_command. destruct (truthy description); [by eexists | done].
Qed.

Lemma star_loop_commands_origin self keep stars k cmds fc :
  od_get k (fold_left (star_step self keep) stars []) = Some cmds ->
  cmds ≠ []
  /\ (fc ∈ cmds ->
      exists star h c,
        star ∈ stars /\ keep star = true /\ star_key star = k
        /\ Handler h ∈ star_handlers_registry self
        /\ Some (handler_module_path h) = module_path star
        /\ first_command (event_filters h) = Some c /\ c ≠ []
        /\ fc = format_command c (desc h)).
Proof.
  intros Hget. destruct (star_loop_lookup self keep stars k cmds Hget) as [-> Hne].
  split.
  - destruct (contributions self keep k stars) as [|x l]; [done|].
    unfold first_occurrences. simpl. done.
  - unfold first_occurrences. intros [Hfc _]%unseen_elem.
    apply contributions_origin in Hfc as (star & Hin & Hkept & Hkey & Hfc).
    apply star_commands_origin in Hfc as (h & c & ? & ? & ? & ? & ?).
    by exists star, h, c.
Qed.

(** X9: in both scan results every extension has at least one command,
    and every command string comes from a handler record of the registry
    whose module path is that of a kept star of that name: it is the name of
    the record's first command or command-group filter, non-empty, followed
    by ["#"] and the description when there is one; so no string is empty
    and each starts with its command name. *)
Theorem scan_commands_origin (self : MyPlugin) (k : str) (cmds : list str)
    (Hget : od_get k (get_all_commands self) = Some cmds
            \/ od_get k (get_plugin_whitelist_commands self) = Some cmds) :
  cmds ≠ []
  /\ forall fc, fc ∈ cmds ->
       fc ≠ []
       /\ exists star h c,
            star ∈ active_stars self /\ star_key star = k
            /\ is_self self (star_cls star) = false
            /\ Handler h ∈ star_handlers_registry self
            /\ Some (handler_module_path h) = module_path star
            /\ first_command (event_filters h) = Some c /\ c ≠ []
            /\ fc = format_command c (desc h)
            /\ c `prefix_of` fc.
Proof.
  assert (Hgen : exists keep,
            (forall star, keep star = true -> is_self self (star_cls star) = false)
            /\ od_get k (fold_left (star_step self keep) (active_stars self) [])
               = Some cmds).
  { destruct Hget as [Hget|Hget].
    - exists (kept_all self). split; [|by rewrite <- get_all_commands_fold].
      intros star Hkept. by apply kept_all_true in Hkept as (_ & _ & ?).
    - eexists. split; [|by rewrite <- get_plugin_whitelist_commands_fold].
      intros star (? & ? & ? & ? & ? & ? & ?)%kept_whitelist_iff. done. }
  destruct Hgen as (keep & Hself & Hfold). split.
  - by destruct (star_loop_commands_origin self keep _ k cmds [] Hfold).
  - intros fc Hfc.
    destruct (star_loop_commands_origin self keep _ k cmds fc Hfold) as [_ Horigin].
    destruct (Horigin Hfc) as (star & h & c & ? & ? & ? & ? & ? & ? & Hc & ->).
    split.
    + destruct (format_command_prefix c (desc h)) as [tail Htail].
      rewrite Htail. by destruct c.
    + exists star, h, c. split_and!; try done; [by apply Hself|].
      apply format_command_prefix.
Qed.

Lemma scan_commands_origin_witness :
  [lit "forecast#show forecast"] ≠ []
  /\ lit "forecast#show forecast" ≠ [].
Proof.
  destruct (scan_commands_origin
              (Samples.plugin Samples.weather_host [] [] Samples.weather_registry)
              (lit "Weather") [lit "forecast#show forecast"]) as [Hne Hall].
  - left. reflexivity.
  - split; [exact Hne|].
    by destruct (Hall (lit "forecast#show forecast") (list_elem_of_here _ _)).
Defined.

Lemma od_get_listed (k : str) (d : odict str (list str)) :
  od_get k d = if bool_decide (k ∈ od_keys d) then Some (listed k d) else None.
Proof.
  unfold listed. case_bool_decide as Hk.
  - apply od_keys_get in Hk as [v Hv]. by rewrite Hv.
  - by apply od_get_None.
Qed.

Lemma contributions_ext self keep1 keep2 k stars :
  (forall star, star ∈ stars -> star_key star = k -> keep1 star = keep2 star) ->
  contributions self keep1 k stars = contributions self keep2 k stars.
Proof.
  induction stars as [|star rest IH]; intros Hext; simpl; [done|].
  rewrite IH by (intros s Hs; by apply Hext, list_elem_of_further).
  f_equal. case_bool_decide as Hk; [|by rewrite !andb_false_r].
  by rewrite (Hext star (list_elem_of_here _ _) Hk).
Qed.

Lemma star_loop_get_ext self keep1 keep2 k stars :
  (forall star, star ∈ stars -> star_key star = k -> keep1 star = keep2 star) ->
  od_get k (fold_left (star_step self keep1) stars [])
  = od_get k (fold_left (star_step self keep2) stars []).
Proof.
  intros Hext. rewrite !od_get_listed, !star_loop_listed.
  rewrite (contributions_ext self keep1 keep2 k stars Hext).
  assert (Hkeys : k ∈ od_keys (fold_left (star_step self keep1) stars [])
                  <-> k ∈ od_keys (fold_left (star_step self keep2) stars [])).
  { rewrite !star_loop_keys.
    by rewrite (contributions_ext self keep1 keep2 k stars Hext). }
  by rewrite (bool_decide_ext _ _ Hkeys).
Qed.

(** X10: the restricted scan is the full scan cut down to the whitelist:
    an extension name that is no key of the extension-keyed whitelist is
    absent from it, and a whitelisted name that is not reserved has in it
    exactly the entry it has in [get_all_commands]. *)
Theorem whitelist_scan_agrees (self : MyPlugin) (k : str) :
  (od_mem k (whitelist_index (config_plugin_whitelist self)) = false ->
     od_get k (get_plugin_whitelist_commands self) = None)
  /\ (od_mem k (whitelist_index (config_plugin_whitelist self)) = true ->
      k ∉ reserved_names ->
      od_get k (get_plugin_whitelist_commands self)
      = od_get k (get_all_commands self)).
Proof.
  split.
  - intros Hout. apply od_get_None.
    rewrite get_plugin_whitelist_commands_fold, star_loop_key_iff.
    intros (star & _ & Hkept & <- & _).
    unfold kept_whitelist in Hkept. rewrite Hout in Hkept. done.
  - intros Hin Hres.
    rewrite get_plugin_whitelist_commands_fold, get_all_commands_fold.
    apply star_loop_get_ext. intros star _ Hkey.
    unfold kept_whitelist, kept_all. rewrite Hkey, Hin.
    by rewrite bool_decide_eq_false_2.
Qed.

Lemma whitelist_scan_agrees_witness :
  od_get (lit "Weather")
         (get_plugin_whitelist_commands
            (Samples.plugin Samples.weather_host [] ["Weather-天气帮助"]%string
                            Samples.weather_registry))
  = od_get (lit "Weather")
           (get_all_commands
              (Samples.plugin Samples.weather_host [] ["Weather-天气帮助"]%string
                              Samples.weather_registry)).
Proof.
  destruct (whitelist_scan_agrees
              (Samples.plugin Samples.weather_host [] ["Weather-天气帮助"]%string
                              Samples.weather_registry)
              (lit "Weather")) as [_ Hsame].
  apply Hsame; [reflexivity|].
  vm_compute. intros Hin.
  repeat (apply elem_of_cons in Hin as [Hin|Hin]; [discriminate|]).
  by apply elem_of_nil in Hin.
Defined.

Lemma scan_handler_no_command n mp d item :
  handler_command mp item = None -> scan_handler n mp d item = d.
Proof.
  unfold scan_handler, handler_command. destruct item as [h|]; [|done].
  destruct (bool_decide (Some (handler_module_path h) ≠ mp)); [done|].
  by destruct (truthy (first_command (event_filters h))).
Qed.

Lemma scan_handlers_remove self pre item post n mp d :
  star_handlers_registry self = pre ++ item :: post ->
  handler_command mp item = None ->
  scan_handlers self n mp d = scan_handlers (with_registry self (pre ++ post)) n mp d.
Proof.
  intros Hreg Hnone. unfold scan_handlers. rewrite Hreg. simpl.
  rewrite !fold_left_app. simpl. by rewrite scan_handler_no_command.
Qed.

(** X11: a registry item that is not handler metadata, and a handler
    record without a command or command-group filter (or whose command name
    is empty), have no influence on either scan: the results are those
    obtained with the item taken out of the registry. *)
Theorem commandless_items_ignored (self : MyPlugin)
    (pre post : list registry_item) (item : registry_item)
    (Hreg : star_handlers_registry self = pre ++ item :: post)
    (Hitem : item = NotAHandler
             \/ exists h, item = Handler h
                          /\ truthy (first_command (event_filters h)) = false) :
  get_all_commands self = get_all_commands (with_registry self (pre ++ post))
  /\ get_plugin_whitelist_commands self
     = get_plugin_whitelist_commands (with_registry self (pre ++ post)).
Proof.
  assert (Hnone : forall mp, handler_command mp item = None).
  { intros mp. destruct Hitem as [->|(h & -> & Hc)]; [done|].
    unfold handler_command. rewrite Hc. by case_bool_decide. }
  assert (Hscan : forall n mp d,
            scan_handlers self n mp d
            = scan_handlers (with_registry self (pre ++ post)) n mp d).
  { intros n mp d. by apply (scan_handlers_remove self pre item post). }
  split.
  - unfold get_all_commands. simpl.
    destruct (get_all_stars (context self)) as [stars|]; [|done].
    destruct (List.filter activated stars); [done|].
    apply fold_left_ext_eq. intros d star. unfold all_step. by rewrite Hscan.
  - unfold get_plugin_whitelist_commands.
    change (config_plugin_whitelist (with_registry self (pre ++ post)))
      with (config_plugin_whitelist self).
    destruct (config_plugin_whitelist self); [done|]. simpl.
    destruct (get_all_stars (context self)) as [stars|]; [|done].
    apply fold_left_ext_eq. intros d star. unfold whitelist_step. by rewrite Hscan.
Qed.

Lemma commandless_items_ignored_witness :
  get_all_commands
    (Samples.plugin Samples.weather_host [] []
       [NotAHandler; Samples.command "weather.mod" "forecast" "show forecast"])
  = get_all_commands
      (with_registry
         (Samples.plugin Samples.weather_host [] []
            [NotAHandler; Samples.command "weather.mod" "forecast" "show forecast"])
         [Samples.command "weather.mod" "forecast" "show forecast"]).
Proof.
  apply (commandless_items_ignored
           (Samples.plugin Samples.weather_host [] []
              [NotAHandler; Samples.command "weather.mod" "forecast" "show forecast"])
           [] [Samples.command "weather.mod" "forecast" "show forecast"] NotAHandler).
  - reflexivity.
  - by left.
Defined.

(** ** The two entry points: replies and faults *)

(** X12: a synthesized handler never raises and always yields exactly one
    reply, for every event; the reply is the not-found text naming its
    extension exactly when the restricted scan has no entry for that
    extension, and otherwise the image of the one-entry mapping, or the
    generic failure text when the drawer fails. *)
Theorem synthesized_handler_replies (plugin_name : str) (self : MyPlugin)
    (event : AstrMessageEvent) :
  (exists reply, make_handler plugin_name self event = Returned [reply])
  /\ (make_handler plugin_name self event
      = Returned [plain_result (lit "插件 " ++ plugin_name ++ lit " 未找到或未激活")]
      <-> od_get plugin_name (get_plugin_whitelist_commands self) = None)
  /\ (forall commands,
        od_get plugin_name (get_plugin_whitelist_commands self) = Some commands ->
        make_handler plugin_name self event
        = match draw_help_image (drawer self) [(plugin_name, commands)] with
          | Some image => Returned [chain_result [Image_fromBytes image]]
          | None => Returned [plain_result (lit "获取帮助信息时出错")]
          end).
Proof.
  unfold make_handler, whitelist_handler.
  destruct (od_get plugin_name (get_plugin_whitelist_commands self)) as [cmds|].
  - split_and!.
    + destruct (draw_help_image _ _); eauto.
    + split; [|done]. destruct (draw_help_image _ _); [done|].
      by intros [= Heq].
    + by intros ? [= <-].
  - split_and!; [eauto | done | done].
Qed.

Lemma synthesized_handler_replies_witness :
  make_handler (lit "Weather")
    (Samples.plugin Samples.weather_host [] ["Weather-天气帮助"]%string
                    Samples.weather_registry)
    (event_of None)
  = Returned [chain_result [Image_fromBytes (lit "Weather")]].
Proof.
  destruct (synthesized_handler_replies (lit "Weather")
              (Samples.plugin Samples.weather_host [] ["Weather-天气帮助"]%string
                              Samples.weather_registry)
              (event_of None)) as (_ & _ & Hfound).
  apply (Hfound [lit "forecast#show forecast"]). reflexivity.
Defined.





(** X14: an event whose payload has no ["user_id"], or holds [None] there,
    passes the gate whatever the caller whitelist contains: only a caller
    with an id can be denied. *)
Theorem caller_without_id_passes (self : MyPlugin) (raw : gmap str pyval)
    (Hid : raw !! lit "user_id" = None \/ raw !! lit "user_id" = Some PyNone) :
  get_help self (event_of (Some raw)) = discovery self.
Proof.
  apply get_help_allowed. right; left. unfold caller_id.
  by destruct Hid as [-> | ->].
Qed.

Lemma caller_without_id_passes_witness :
  get_help (Samples.plugin Samples.weather_host ["123"%string] []
                           Samples.weather_registry)
           (event_of (Some (Samples.payload PyNone)))
  = discovery (Samples.plugin Samples.weather_host ["123"%string] []
                              Samples.weather_registry).
Proof.
  apply (caller_without_id_passes
           (Samples.plugin Samples.weather_host ["123"%string] []
                           Samples.weather_registry)
           (Samples.payload PyNone)).
  right. vm_compute. reflexivity.
Defined.

(** X15: the command name of a handler record is that of its first command
    or command-group filter, whatever follows it; a record has none exactly
    when it carries no such filter. *)
Theorem first_command_first_match (filters : list EventFilter) :
  (first_command filters = None <-> Forall (fun f => f = OtherFilter) filters)
  /\ (forall others f rest command_name,
        filters = others ++ f :: rest ->
        Forall (fun f' => f' = OtherFilter) others ->
        f = CommandFilter command_name \/ f = CommandGroupFilter command_name ->
        first_command filters = Some command_name).
Proof.
  split.
  - induction filters as [|f filters IH]; simpl.
    + split; [constructor | done].
    + destruct f; simpl.
      * split; [done | by intros [? _]%Forall_cons].
      * split; [done | by intros [? _]%Forall_cons].
      * rewrite IH. split; [by constructor | by intros [_ ?]%Forall_cons].
  - intros others f rest command_name -> Hothers Hf.
    induction Hothers as [|f' others -> _ IH]; simpl; [|done].
    by destruct Hf as [-> | ->].
Qed.

Lemma first_command_first_match_witness :
  first_command [OtherFilter; CommandGroupFilter (lit "weather");
                 CommandFilter (lit "forecast")]
  = Some (lit "weather").
Proof.
  destruct (first_command_first_match
              [OtherFilter; CommandGroupFilter (lit "weather");
               CommandFilter (lit "forecast")]) as [_ Hfirst].
  apply (Hfirst [OtherFilter] (CommandGroupFilter (lit "weather"))
                [CommandFilter (lit "forecast")]).
  - reflexivity.
  - by repeat constructor.
  - by right.
Defined.

(** X16: the split of a configuration string at its first ['-'] loses
    nothing: the left part holds no ['-'] and left, ['-'] and right put
    together give the string back; a string without ['-'] is not split. *)
Theorem split_at_first_dash (s : str) :
  (contains dash s = true ->
     before_first dash s ++ dash :: after_first dash s = s
     /\ (dash ∉ before_first dash s))
  /\ (contains dash s = false ->
        before_first dash s = s /\ after_first dash s = []).
Proof.
  unfold contains. split.
  - intros Hin%bool_decide_eq_true. induction s as [|c s IH]; simpl.
    + by apply elem_of_nil in Hin.
    + destruct (N.eqb_spec c dash) as [->|Hne].
      * split; [done | apply not_elem_of_nil].
      * apply elem_of_cons in Hin as [?|Hin]; [by subst|].
        destruct (IH Hin) as [Hjoin Hleft]. split; [cbn; f_equal; exact Hjoin|].
        apply not_elem_of_cons. split; [intros Heq; by apply Hne | done].
  - intros Hout%bool_decide_eq_false. induction s as [|c s IH]; simpl; [done|].
    apply not_elem_of_cons in Hout as [Hc Hout].
    destruct (N.eqb_spec c dash) as [->|Hne]; [done|].
    destruct (IH Hout) as [Hb Ha]. split; [f_equal; exact Hb | exact Ha].
Qed.

Lemma split_at_first_dash_witness :
  before_first dash (lit "A-b-c") ++ dash :: after_first dash (lit "A-b-c")
  = lit "A-b-c".
Proof.
  destruct (split_at_first_dash (lit "A-b-c")) as [Hsplit _].
  by destruct (Hsplit eq_refl).
Defined.

(** X17: every bound method the synthesizer stores on the instance is the
    closure made for the extension of a whitelist trigger with that handler
    name, and when that extension is not reserved, calling it shows exactly
    the entry [get_all_commands] holds for the extension: its image when
    there is one (or the generic failure text when the drawer fails), the
    not-found text when there is none. *)
Theorem stored_handler_shows_full_entry (self : MyPlugin) (n : str)
    (h : handler) (event : AstrMessageEvent)
    (Hattr : attributes (init self).2 !! n = Some h) :
  exists t p,
    od_get t (_parse_whitelist_config self) = Some p
    /\ n = handler_name t
    /\ h = make_handler p
    /\ (p ∉ reserved_names ->
        h self event
        = match od_get p (get_all_commands self) with
          | Some commands =>
            match draw_help_image (drawer self) [(p, commands)] with
            | Some image => Returned [chain_result [Image_fromBytes image]]
            | None => Returned [plain_result (lit "获取帮助信息时出错")]
            end
          | None => Returned [plain_result (lit "插件 " ++ p ++ lit " 未找到或未激活")]
          end).
Proof.
  unfold init in Hattr. simpl in Hattr.
  apply create_attributes_origin in Hattr as [Hattr | (t & p & Hin & -> & ->)]; [done|].
  assert (Hbound : od_get t (_parse_whitelist_config self) = Some p).
  { apply od_elem_get; [apply parse_NoDup | done]. }
  exists t, p. split_and!; try done. intros Hres.
  pose proof (bound_extension_listed self t p Hbound) as Hlisted.
  assert (Hsame : od_get p (get_plugin_whitelist_commands self)
                  = od_get p (get_all_commands self)).
  { rewrite get_plugin_whitelist_commands_fold, get_all_commands_fold.
    apply star_loop_get_ext. intros star _ Hkey.
    unfold kept_whitelist, kept_all. rewrite Hkey, Hlisted.
    by rewrite bool_decide_eq_false_2. }
  unfold make_handler, whitelist_handler. by rewrite Hsame.
Qed.

Lemma stored_handler_shows_full_entry_witness :
  exists t p,
    od_get t (_parse_whitelist_config
                (Samples.plugin Samples.weather_host [] ["Weather-天气帮助"]%string
                                Samples.weather_registry)) = Some p
    /\ lit "whitelist_天气帮助" = handler_name t
    /\ make_handler (lit "Weather") = make_handler p.
Proof.
  destruct (stored_handler_shows_full_entry
              (Samples.plugin Samples.weather_host [] ["Weather-天气帮助"]%string
                              Samples.weather_registry)
              (lit "whitelist_天气帮助") (make_handler (lit "Weather")) (event_of None))
    as (t & p & Hget & Hname & Hrun & _).
  - unfold init, _create_whitelist_handlers.
    replace (od_items (_parse_whitelist_config _))
      with ([] ++ (lit "天气帮助", lit "Weather") :: []) by reflexivity.
    replace (lit "whitelist_天气帮助") with (handler_name (lit "天气帮助")) by reflexivity.
    apply create_attributes_last. constructor.
  - by exists t, p.
Defined.
